(** * event_checker.py: new-event detection, notification and the known-event store

    A shallow embedding of [src/event_checker.py].  Parsed JSON is an
    inductive type, Python exceptions are values of [exn], and every function
    that touches the store file or the mail relay is a computation in a
    state-and-exception monad over [world].  Logging calls are left out: they
    neither raise nor change anything the properties below speak about. *)

From Stdlib Require Import ZArith String Ascii List.
From stdpp Require Import base option list sorting gmap sets strings pretty.

Local Open Scope string_scope.
Local Set Warnings "-register-all".

(** ** Values *)

(** What [json.load] and [response.json()] hand back.  An object keeps its
    members in insertion order, as a Python dict does; its keys are distinct.
    Fractional numbers are not represented. *)
Inductive json : Type :=
  | JNull
  | JBool (b : bool)
  | JNum (z : Z)
  | JStr (s : string)
  | JArr (items : list json)
  | JObj (members : list (string * json)).

(** The exceptions the script can end with.  [ConnectionError], [HTTPError]
    and [InvalidJSONError] are the subclasses of
    [requests.exceptions.RequestException] that [requests.get],
    [raise_for_status] and [response.json] raise; the [except] clause of
    [get_artist_events] logs them and raises them again. *)
Inductive exn : Type :=
  | ValueError (msg : string)
  | KeyError
  | IndexError
  | TypeError
  | AttributeError
  | JSONDecodeError
  | ConnectionError
  | HTTPError (status : Z)
  | InvalidJSONError
  | SMTPException
  | OSError
  | Unsupported.

(** [Unsupported] is not a Python exception.  An identifier that is a JSON
    scalar but not a string is hashable, and Python would keep it in the set;
    the development follows the annotation [set[str]] and stops such a run
    with [Unsupported]. *)

Inductive result (A : Type) : Type :=
  | Ok (a : A)
  | Raise (e : exn).
Arguments Ok {A} a.
Arguments Raise {A} e.

Definition is_request_exception (e : exn) : bool :=
  match e with
  | ConnectionError | HTTPError _ | InvalidJSONError => true
  | _ => false
  end.

(** ** Configuration and the outside world *)

(** The four module-level names read with [os.getenv]. *)
Record config : Type := Config {
  API_KEY : option string;
  GMAIL_USER : option string;
  GMAIL_APP_PASSWORD : option string;
  RECIPIENTS : option string
}.

Definition ARTIST_ID : string := "K8vZ9171o9f".

(** Python truth of an [os.getenv] result: [None] and the empty string are
    false. *)
Definition truthy (v : option string) : bool :=
  match v with
  | Some s => negb (String.eqb s "")
  | None => false
  end.

(** The text of an [os.getenv] result that passed a truth test. *)
Definition text_of (v : option string) : string := default "" v.

(** What the discovery endpoint does with the one GET of a run:
    [NoConnection] is a transport failure inside [requests.get], [BadStatus]
    a status that [raise_for_status] rejects, [Reply body] an accepted
    response whose body parses to [body], or is not JSON when [body] is
    [None]. *)
Inductive http_reply : Type :=
  | NoConnection
  | BadStatus (status : Z)
  | Reply (body : option json).

(** What the mail relay does with the one session of a run: the session
    runs to its end and the message is taken, or a step of the session raises
    an [smtplib.SMTPException], or the connection itself fails with an
    [OSError].  In the two failures nothing has been handed over; a session
    that takes the message and then fails while it closes is not
    represented. *)
Inductive smtp_reply : Type :=
  | Accepted
  | Refused
  | Unreachable.

Record network : Type := Network {
  http : http_reply;
  smtp : smtp_reply
}.

(** A [MIMEText] message with the three headers the script sets. *)
Record email : Type := Email {
  subject : string;
  from : string;
  to : string;
  body : string
}.

(** One [server.sendmail] call. *)
Record sendmail_call : Type := Sendmail {
  from_addr : string;
  to_addrs : list string;
  msg : email
}.

(** The content of [DB_FILE] when it exists.  [json.dump] and [json.load] are
    taken at their contract: a value that was written is the value read
    back, so the file is represented by the JSON value it holds; [NotJson]
    is any content that [json.load] rejects. *)
Inductive file_body : Type :=
  | Json (doc : json)
  | NotJson.

(** The state a run reads and changes: the store file, the messages handed to
    the relay, and the argument of every [notify_email] call, oldest first. *)
Record world : Type := World {
  db_file : option file_body;
  outbox : list sendmail_call;
  notify_calls : list (list json)
}.

(** ** The monad *)

Definition M (A : Type) : Type := world → result A * world.

Definition ret {A} (a : A) : M A := λ w, (Ok a, w).
Definition raise {A} (e : exn) : M A := λ w, (Raise e, w).
Definition bind {A B} (m : M A) (k : A → M B) : M B :=
  λ w, match m w with
       | (Ok a, w') => k a w'
       | (Raise e, w') => (Raise e, w')
       end.
Definition lift {A} (r : result A) : M A := λ w, (r, w).

Definition rbind {A B} (r : result A) (k : A → result B) : result B :=
  match r with
  | Ok a => k a
  | Raise e => Raise e
  end.

Declare Scope py_scope.
Delimit Scope py_scope with py.
Notation "'do' x <- m ; k" := (bind m (λ x, k))
  (at level 10, x name, m at level 100, k at level 200) : py_scope.
Notation "m ;; k" := (bind m (λ _, k))
  (at level 100, k at level 200, right associativity) : py_scope.
Notation "'let?' x := r 'in' k" := (rbind r (λ x, k))
  (at level 10, x name, r at level 100, k at level 200) : py_scope.
Local Open Scope py_scope.

(** ** Python built-ins on parsed JSON *)

Fixpoint lookup_member (k : string) (ms : list (string * json)) : option json :=
  match ms with
  | [] => None
  | (k', v) :: ms' => if String.eqb k k' then Some v else lookup_member k ms'
  end.

(** [d.get(k, dflt)]: only a dict has the method. *)
Definition py_get (d : json) (k : string) (dflt : json) : result json :=
  match d with
  | JObj ms => Ok (default dflt (lookup_member k ms))
  | _ => Raise AttributeError
  end.

(** [v[k]] for a string [k]: a missing key is a [KeyError], and a list or a
    string refuses a string index. *)
Definition py_getitem (v : json) (k : string) : result json :=
  match v with
  | JObj ms =>
      match lookup_member k ms with
      | Some x => Ok x
      | None => Raise KeyError
      end
  | _ => Raise TypeError
  end.

(** [v[0]]. *)
Definition py_first (v : json) : result json :=
  match v with
  | JArr (x :: _) => Ok x
  | JArr [] => Raise IndexError
  | JStr (String c _) => Ok (JStr (String c ""))
  | JStr "" => Raise IndexError
  | JObj _ => Raise KeyError
  | _ => Raise TypeError
  end.

Fixpoint chars (s : string) : list string :=
  match s with
  | "" => []
  | String c s' => String c "" :: chars s'
  end.

(** [for x in v]: the items of a list, the keys of a dict, the characters of
    a string. *)
Definition py_iter (v : json) : result (list json) :=
  match v with
  | JArr items => Ok items
  | JObj ms => Ok (JStr <$> ms.*1)
  | JStr s => Ok (JStr <$> chars s)
  | _ => Raise TypeError
  end.

(** A value used as a set element: lists and dicts are unhashable. *)
Definition py_hash_key (v : json) : result string :=
  match v with
  | JStr s => Ok s
  | JArr _ | JObj _ => Raise TypeError
  | _ => Raise Unsupported
  end.

Fixpoint collect_keys (vs : list json) : result (gset string) :=
  match vs with
  | [] => Ok ∅
  | v :: vs' =>
      let? k := py_hash_key v in
      let? rest := collect_keys vs' in
      Ok ({[ k ]} ∪ rest)
  end.

(** [set(v)]. *)
Definition py_set (v : json) : result (gset string) :=
  let? items := py_iter v in collect_keys items.

(** [sep.join(parts)]. *)
Fixpoint join (sep : string) (parts : list string) : string :=
  match parts with
  | [] => ""
  | [p] => p
  | p :: ps => p +:+ sep +:+ join sep ps
  end.

Definition nl : string := String "010"%char "".

(** [s.split(",")] and [s.strip()] on ASCII text. *)
Fixpoint split_on (c : ascii) (s : string) : list string :=
  match s with
  | "" => [""]
  | String a s' =>
      if Ascii.eqb a c then "" :: split_on c s'
      else match split_on c s' with
           | p :: ps => String a p :: ps
           | [] => [String a ""]
           end
  end.

Definition is_space (a : ascii) : bool :=
  let n := nat_of_ascii a in
  (Nat.eqb n 32 || (Nat.leb 9 n && Nat.leb n 13) || (Nat.leb 28 n && Nat.leb n 31))%bool.

Fixpoint lstrip (s : string) : string :=
  match s with
  | "" => ""
  | String a s' => if is_space a then lstrip s' else s
  end.

Fixpoint rstrip (s : string) : string :=
  match s with
  | "" => ""
  | String a s' =>
      match rstrip s' with
      | "" => if is_space a then "" else String a ""
      | r => String a r
      end
  end.

Definition strip (s : string) : string := rstrip (lstrip s).

(** ** The script *)

Section Script.

(** Two pieces of the Python runtime stay parameters: [py_repr] is [str] of
    a list or a dict, and [str_hash] orders the elements of a set when it is
    turned into a list (sets iterate in hash order, which changes from one
    process to the next). *)
Variable py_repr : json → string.
Variable str_hash : string → N.

Variable cfg : config.
Variable net : network.

(** [f"{v}"]. *)
Definition fmt (v : json) : string :=
  match v with
  | JStr s => s
  | JNull => "None"
  | JBool true => "True"
  | JBool false => "False"
  | JNum z => pretty z
  | _ => py_repr v
  end.

Definition hash_le (a b : string) : Prop := (str_hash a ≤ str_hash b)%N.

#[local] Instance hash_le_dec : RelDecision hash_le :=
  λ a b, decide (str_hash a ≤ str_hash b)%N.

(** [list(s)] for a set [s]: its elements, each once, in hash order. *)
Definition set_to_list (s : gset string) : list string :=
  merge_sort hash_le (elements s).

(** *** The known-event store *)

Definition load_known_events : M (gset string) :=
  λ w, match db_file w with
       | Some (Json doc) => (py_set doc, w)
       | Some NotJson => (Raise JSONDecodeError, w)
       | None => (Ok ∅, w)
       end.

Definition save_known_events (event_ids : gset string) : M unit :=
  λ w, (Ok tt,
        {| db_file := Some (Json (JArr (JStr <$> set_to_list event_ids)));
           outbox := outbox w;
           notify_calls := notify_calls w |}).

(** *** The event source *)

Definition get_artist_events (attraction_id : string) : M json :=
  lift match http net with
       | NoConnection => Raise ConnectionError
       | BadStatus status => Raise (HTTPError status)
       | Reply None => Raise InvalidJSONError
       | Reply (Some data) =>
           let? embedded := py_get data "_embedded" (JObj []) in
           py_get embedded "events" (JArr [])
       end.

(** *** The notifier *)

Definition delimiter : string := "----------------------------------------".

Definition event_details (event : json) : result string :=
  let? event_name := py_get event "name" JNull in
  let? event_url := py_get event "url" JNull in
  let? dates := py_get event "dates" (JObj []) in
  let? start := py_get dates "start" (JObj []) in
  let? event_date := py_get start "localDate" (JStr "N/A") in
  let? embedded := py_get event "_embedded" (JObj []) in
  let? venues := py_get embedded "venues" (JArr [JObj []]) in
  let? venue_info := py_first venues in
  let? venue_name := py_get venue_info "name" (JStr "N/A") in
  let? city_info := py_get venue_info "city" (JObj []) in
  let? city := py_get city_info "name" (JStr "N/A") in
  Ok (delimiter +:+ nl
      +:+ "Event: " +:+ fmt event_name +:+ nl
      +:+ "Date: " +:+ fmt event_date +:+ nl
      +:+ "Venue: " +:+ fmt venue_name +:+ " in " +:+ fmt city +:+ nl
      +:+ "Link: " +:+ fmt event_url +:+ nl).

(** The loop over [events], appending one block each. *)
Fixpoint body_blocks (events : list json) : result (list string) :=
  match events with
  | [] => Ok []
  | event :: rest =>
      let? block := event_details event in
      let? blocks := body_blocks rest in
      Ok (block :: blocks)
  end.

Definition plural_s (num_events : nat) : string :=
  if decide (1 < num_events) then "s" else "".

Definition mail_subject (num_events : nat) : string :=
  "Masayoshi Takanaka added " +:+ pretty num_events +:+ " new concert"
  +:+ plural_s num_events +:+ "!".

Definition body_header (num_events : nat) : string :=
  "Hello! " +:+ pretty num_events +:+ " new event" +:+ plural_s num_events
  +:+ " have been added for your tracked artist:" +:+ nl.

Definition mail_body (events : list json) : result string :=
  let? blocks := body_blocks events in
  Ok (join nl (body_header (length events) :: blocks)).

Definition recipient_emails : list string :=
  strip <$> split_on ","%char (text_of (RECIPIENTS cfg)).

Definition enter_notify (events : list json) : M unit :=
  λ w, (Ok tt,
        {| db_file := db_file w;
           outbox := outbox w;
           notify_calls := notify_calls w ++ [events] |}).

(** The [with smtplib.SMTP_SSL(...)] block. *)
Definition smtp_session (m : email) : M unit :=
  λ w, match smtp net with
       | Unreachable => (Raise OSError, w)
       | Refused => (Raise SMTPException, w)
       | Accepted =>
           (Ok tt,
            {| db_file := db_file w;
               outbox := outbox w
                         ++ [Sendmail (text_of (GMAIL_USER cfg)) recipient_emails m];
               notify_calls := notify_calls w |})
       end.

Definition notify_email (events : list json) : M unit :=
  enter_notify events ;;
  if negb (truthy (GMAIL_USER cfg)) || negb (truthy (GMAIL_APP_PASSWORD cfg))
     || negb (truthy (RECIPIENTS cfg))
  then raise (ValueError "Email credentials not set.")
  else
    do text <- lift (mail_body events);
    smtp_session {| subject := mail_subject (length events);
                    from := text_of (GMAIL_USER cfg);
                    to := text_of (RECIPIENTS cfg);
                    body := text |}.

(** *** The orchestrator *)

(** [event["id"]] as a set element. *)
Definition event_id (event : json) : result string :=
  let? v := py_getitem event "id" in py_hash_key v.

Fixpoint id_set (events : list json) : result (gset string) :=
  match events with
  | [] => Ok ∅
  | event :: rest =>
      let? k := event_id event in
      let? ids := id_set rest in
      Ok ({[ k ]} ∪ ids)
  end.

(** [{event["id"] for event in current_events}]. *)
Definition current_ids (current_events : json) : result (gset string) :=
  let? events := py_iter current_events in id_set events.

Definition new_ids (current_event_ids known_event_ids : gset string) : gset string :=
  current_event_ids ∖ known_event_ids.

Fixpoint keep_new (events : list json) (new_event_ids : gset string)
  : result (list json) :=
  match events with
  | [] => Ok []
  | event :: rest =>
      let? k := event_id event in
      let? kept := keep_new rest new_event_ids in
      Ok (if decide (k ∈ new_event_ids) then event :: kept else kept)
  end.

(** [[event for event in current_events if event["id"] in new_event_ids]]. *)
Definition select_new (current_events : json) (new_event_ids : gset string)
  : result (list json) :=
  let? events := py_iter current_events in keep_new events new_event_ids.

Definition main : M unit :=
  if negb (truthy (API_KEY cfg))
  then raise (ValueError "Error: TICKETMASTER_API_KEY environment variable is not set.")
  else
    do known_event_ids <- load_known_events;
    do current_events <- get_artist_events ARTIST_ID;
    do current_event_ids <- lift (current_ids current_events);
    let new_event_ids := new_ids current_event_ids known_event_ids in
    (if decide (new_event_ids = ∅) then ret tt
     else
       do new_events <- lift (select_new current_events new_event_ids);
       notify_email new_events) ;;
    save_known_events current_event_ids.

(** The [if __name__ == "__main__"] block: the test of the key once more,
    then [main]. *)
Definition script : M unit :=
  if negb (truthy (API_KEY cfg))
  then raise (ValueError "Error: TICKETMASTER_API_KEY environment variable is not set.")
  else main.

End Script.

(** ** Sample data *)

Module Sample.

Definition event (id name : string) : json :=
  JObj [("id", JStr id); ("name", JStr name);
        ("url", JStr ("https://tickets.example/" +:+ id))].

(** An event with every field the notifier reads. *)
Definition full_event : json :=
  JObj [("id", JStr "B"); ("name", JStr "Rainbow Goblins");
        ("url", JStr "https://tickets.example/B");
        ("dates", JObj [("start", JObj [("localDate", JStr "2025-03-01")])]);
        ("_embedded",
         JObj [("venues",
                JArr [JObj [("name", JStr "Budokan");
                            ("city", JObj [("name", JStr "Tokyo")])]])])].

(** An event whose venue list is present and empty. *)
Definition no_venue_event : json :=
  JObj [("id", JStr "B"); ("name", JStr "Rainbow Goblins");
        ("url", JStr "https://tickets.example/B");
        ("_embedded", JObj [("venues", JArr [])])].

Definition feed (events : list json) : json :=
  JObj [("_embedded", JObj [("events", JArr events)])].

Definition cfg_full : config :=
  {| API_KEY := Some "key"; GMAIL_USER := Some "me@example.org";
     GMAIL_APP_PASSWORD := Some "secret";
     RECIPIENTS := Some "a@example.org, b@example.org" |}.

Definition cfg_no_mail : config :=
  {| API_KEY := Some "key"; GMAIL_USER := None;
     GMAIL_APP_PASSWORD := None; RECIPIENTS := None |}.

Definition net_of (events : list json) : network :=
  {| http := Reply (Some (feed events)); smtp := Accepted |}.

Definition store (ids : list string) : world :=
  {| db_file := Some (Json (JArr (JStr <$> ids))); outbox := []; notify_calls := [] |}.

Definition no_store : world :=
  {| db_file := None; outbox := []; notify_calls := [] |}.

Definition repr0 : json → string := λ _, "".
Definition hash0 : string → N := λ _, 0%N.

End Sample.

(** ** Vocabulary of the statements *)

(** All three mail settings pass the truth test of [notify_email]. *)
Definition mail_ready (cfg : config) : bool :=
  truthy (GMAIL_USER cfg) && truthy (GMAIL_APP_PASSWORD cfg)
  && truthy (RECIPIENTS cfg).

(** The test of the list comprehension that picks the new events. *)
Definition has_new_id (new_event_ids : gset string) (event : json) : bool :=
  match event_id event with
  | Ok k => bool_decide (k ∈ new_event_ids)
  | Raise _ => false
  end.

(** The world after [notify_email] has been entered with [events]. *)
Definition entered (events : list json) (w : world) : world :=
  {| db_file := db_file w; outbox := outbox w;
     notify_calls := notify_calls w ++ [events] |}.

(** The world after [save_known_events] has written [ids] in this order. *)
Definition written (ids : list string) (w : world) : world :=
  {| db_file := Some (Json (JArr (JStr <$> ids)));
     outbox := outbox w; notify_calls := notify_calls w |}.

(** The member of nested dicts at the end of a path of keys, if every step
    on the way is a dict that has the key. *)
Fixpoint dig (path : list string) (v : json) : option json :=
  match path with
  | [] => Some v
  | k :: path' =>
      match v with
      | JObj ms =>
          match lookup_member k ms with
          | Some x => dig path' x
          | None => None
          end
      | _ => None
      end
  end.

Definition first_venue (event : json) : option json :=
  match dig ["_embedded"; "venues"] event with
  | Some (JArr (venue :: _)) => Some venue
  | _ => None
  end.

(** The block the specification describes for one event: the delimiter
    line, then name, date, venue in city and link, with the placeholder
    [N/A] for an absent date, venue name or city. *)
Definition block_of (py_repr : json → string) (event : json) : string :=
  let show dflt o := fmt py_repr (default dflt o) in
  delimiter +:+ nl
  +:+ "Event: " +:+ show JNull (dig ["name"] event) +:+ nl
  +:+ "Date: "
  +:+ show (JStr "N/A") (dig ["dates"; "start"; "localDate"] event) +:+ nl
  +:+ "Venue: " +:+ show (JStr "N/A") (first_venue event ≫= dig ["name"])
  +:+ " in " +:+ show (JStr "N/A") (first_venue event ≫= dig ["city"; "name"])
  +:+ nl
  +:+ "Link: " +:+ show JNull (dig ["url"] event) +:+ nl.

Definition is_dict (v : json) : bool :=
  match v with
  | JObj _ => true
  | _ => false
  end.

Definition dict_if_present (o : option json) : bool :=
  match o with
  | Some v => is_dict v
  | None => true
  end.

(** An event the notifier can read: every nested value it calls [get] on is
    a dict when present, and the venue list, when present, is a list with a
    first element. *)
Definition well_shaped (event : json) : bool :=
  is_dict event
  && dict_if_present (dig ["dates"] event)
  && dict_if_present (dig ["dates"; "start"] event)
  && dict_if_present (dig ["_embedded"] event)
  && match dig ["_embedded"; "venues"] event with
     | None => true
     | Some (JArr (venue :: _)) =>
         is_dict venue && dict_if_present (dig ["city"] venue)
     | Some _ => false
     end.

(** How often a character occurs in a text. *)
Fixpoint count_char (c : ascii) (s : string) : nat :=
  match s with
  | "" => 0
  | String a s' => (if Ascii.eqb a c then 1 else 0) + count_char c s'
  end.

(** A list or a dict: a value that cannot be a set element. *)
Definition unhashable (v : json) : bool :=
  match v with
  | JArr _ | JObj _ => true
  | _ => false
  end.



(** White space only, and white space at the ends of a text. *)
Fixpoint all_space (s : string) : bool :=
  match s with
  | "" => true
  | String a s' => is_space a && all_space s'
  end.

Definition starts_with_space (s : string) : bool :=
  match s with
  | "" => false
  | String a _ => is_space a
  end.

Fixpoint ends_with_space (s : string) : bool :=
  match s with
  | "" => false
  | String a "" => is_space a
  | String _ s' => ends_with_space s'
  end.

(** An address as it stands in [RECIPIENTS]: white space, the address,
    white space. *)
Definition padded (entry : string * string * string) : string :=
  entry.1.1 +:+ entry.1.2 +:+ entry.2.

(** Text of ASCII characters only. *)
Fixpoint ascii_text (s : string) : bool :=
  match s with
  | "" => true
  | String a s' => Nat.ltb (nat_of_ascii a) 128 && ascii_text s'
  end.

(** An address that can be told from what surrounds it: ASCII text with no
    comma in it and no white space at its ends, and only white space around
    it. *)
Definition clean_entry (entry : string * string * string) : bool :=
  all_space entry.1.1 && all_space entry.2
  && Nat.eqb (count_char ","%char entry.1.2) 0
  && negb (starts_with_space entry.1.2)
  && negb (ends_with_space entry.1.2)
  && ascii_text entry.1.2.

(** ** Properties *)

Section Properties.

Variable py_repr : json → string.
Variable str_hash : string → N.
Variable cfg : config.
Variable net : network.

Local Abbreviation load := load_known_events.
Local Abbreviation save := (save_known_events str_hash).
Local Abbreviation fetch := (get_artist_events net ARTIST_ID).
Local Abbreviation run := (main py_repr str_hash cfg net).

(** *** The store *)

Lemma collect_keys_strings (l : list string) :
  collect_keys (JStr <$> l) = Ok (list_to_set l).
Proof.
  induction l as [|x l IH]; [done|].
  rewrite fmap_cons. cbn [collect_keys py_hash_key rbind].
  by rewrite IH.
Qed.

Lemma set_to_list_perm (s : gset string) : set_to_list str_hash s ≡ₚ elements s.
Proof. apply merge_sort_Permutation. Qed.

Lemma list_to_set_set_to_list (s : gset string) :
  list_to_set (set_to_list str_hash s) = s.
Proof. rewrite set_to_list_perm. apply list_to_set_elements_L. Qed.

Lemma load_array_of_strings (l : list string) (w : world) :
  db_file w = Some (Json (JArr (JStr <$> l))) →
  load w = (Ok (list_to_set l), w).
Proof.
  intros Hf. unfold load_known_events, py_set. rewrite Hf. simpl.
  by rewrite collect_keys_strings.
Qed.

Lemma load_save (s : gset string) (w : world) :
  load (save s w).2 = (Ok s, (save s w).2).
Proof.
  rewrite (load_array_of_strings (set_to_list str_hash s)); [|done].
  by rewrite list_to_set_set_to_list.
Qed.

(** C7: saving a set of identifiers and loading it again returns exactly
    that set, for every order in which the identifiers are written: the
    order [save_known_events] itself uses (any hash order), and any other
    arrangement of the same identifiers in the file. *)
Theorem c7_save_load_round_trip (s : gset string) (w : world) :
  load (save s w).2 = (Ok s, (save s w).2)
  ∧ ∀ (l : list string) (w' : world),
      l ≡ₚ elements s →
      db_file w' = Some (Json (JArr (JStr <$> l))) →
      load w' = (Ok s, w').
Proof.
  split; [apply load_save|].
  intros l w' Hl Hf.
  rewrite (load_array_of_strings l) by done.
  by rewrite Hl, list_to_set_elements_L.
Qed.

(** C8: with no store file, loading returns the empty set and raises
    nothing. *)
Theorem c8_load_missing_store (w : world) :
  db_file w = None → load w = (Ok ∅, w).
Proof. intros Hf. unfold load_known_events. by rewrite Hf. Qed.

(** *** The steps of a run *)

Lemma keep_new_filter (events : list json) (C N : gset string) :
  id_set events = Ok C →
  keep_new events N = Ok (List.filter (has_new_id N) events).
Proof.
  revert C. induction events as [|e es IH]; intros C; [done|].
  cbn [id_set keep_new List.filter]. unfold has_new_id at 1.
  destruct (event_id e) as [k|x]; [|done]. cbn [rbind].
  destruct (id_set es) as [ids|x]; [|done]. cbn [rbind]. intros _.
  rewrite (IH ids) by done. cbn [rbind].
  by destruct (decide (k ∈ N)) as [Hk|Hk];
    [rewrite bool_decide_eq_true_2|rewrite bool_decide_eq_false_2].
Qed.

Lemma select_new_filter (evs : json) (C N : gset string) :
  current_ids evs = Ok C →
  ∃ items, py_iter evs = Ok items
           ∧ id_set items = Ok C
           ∧ select_new evs N = Ok (List.filter (has_new_id N) items).
Proof.
  unfold current_ids, select_new.
  destruct (py_iter evs) as [items|x]; [|done]. cbn [rbind]. intros HC.
  exists items. eauto using keep_new_filter.
Qed.

Lemma new_ids_empty_iff (C K : gset string) : new_ids C K = ∅ ↔ C ⊆ K.
Proof.
  unfold new_ids. split.
  - intros Hempty x Hx. destruct (decide (x ∈ K)) as [|Hn]; [done|].
    assert (x ∈ C ∖ K) as Hin by (by apply elem_of_difference).
    rewrite Hempty in Hin. by apply not_elem_of_empty in Hin.
  - intros Hsub. apply elem_of_equiv_empty_L. intros x.
    rewrite elem_of_difference. intros [Hx Hn]. by apply Hn, Hsub.
Qed.

Lemma union_absorbs_iff (K C : gset string) : C = K ∪ C ↔ K ⊆ C.
Proof.
  split.
  - intros HC x Hx. rewrite HC. apply elem_of_union. by left.
  - intros Hsub. apply set_eq. intros x. rewrite elem_of_union.
    split; [by right|]. intros [Hx|Hx]; [by apply Hsub|done].
Qed.

Lemma main_steps (w : world) (K C : gset string) (evs : json) :
  truthy (API_KEY cfg) = true →
  load w = (Ok K, w) →
  fetch w = (Ok evs, w) →
  current_ids evs = Ok C →
  run w =
    ((if decide (new_ids C K = ∅) then ret tt
      else do new_events <- lift (select_new evs (new_ids C K));
           notify_email py_repr cfg net new_events) ;;
     save C) w.
Proof.
  intros Hkey Hload Hfetch Hids. unfold main. rewrite Hkey. cbn [negb].
  unfold bind at 1. rewrite Hload.
  unfold bind at 1. rewrite Hfetch.
  unfold bind at 1, lift at 1. by rewrite Hids.
Qed.

Lemma main_nothing_new (w : world) (K C : gset string) (evs : json) :
  truthy (API_KEY cfg) = true →
  load w = (Ok K, w) →
  fetch w = (Ok evs, w) →
  current_ids evs = Ok C →
  C ⊆ K →
  run w = (Ok tt, written (set_to_list str_hash C) w).
Proof.
  intros Hkey Hload Hfetch Hids Hsub.
  rewrite (main_steps w K C evs) by done.
  rewrite decide_True by by apply new_ids_empty_iff.
  done.
Qed.

Lemma main_something_new (w : world) (K C : gset string) (evs : json) :
  truthy (API_KEY cfg) = true →
  load w = (Ok K, w) →
  fetch w = (Ok evs, w) →
  current_ids evs = Ok C →
  ¬ C ⊆ K →
  ∃ items,
    py_iter evs = Ok items
    ∧ id_set items = Ok C
    ∧ run w =
        (notify_email py_repr cfg net (List.filter (has_new_id (C ∖ K)) items) ;;
         save C) w.
Proof.
  intros Hkey Hload Hfetch Hids Hsub.
  destruct (select_new_filter evs C (C ∖ K) Hids) as (items & Hit & Hset & Hsel).
  exists items. split; [done|]. split; [done|].
  rewrite (main_steps w K C evs) by done.
  rewrite decide_False by by rewrite new_ids_empty_iff.
  unfold new_ids. unfold bind at 1 3. unfold bind at 1, lift at 1.
  by rewrite Hsel.
Qed.

(** *** The notifier *)

Lemma notify_without_credentials (events : list json) (w : world) :
  mail_ready cfg = false →
  notify_email py_repr cfg net events w
  = (Raise (ValueError "Email credentials not set."), entered events w).
Proof.
  unfold mail_ready, notify_email, bind, enter_notify. intros Hcfg.
  by destruct (truthy (GMAIL_USER cfg)), (truthy (GMAIL_APP_PASSWORD cfg)),
       (truthy (RECIPIENTS cfg)).
Qed.

Lemma notify_with_credentials (events : list json) (w : world) :
  mail_ready cfg = true →
  notify_email py_repr cfg net events w
  = (do text <- lift (mail_body py_repr events);
     smtp_session cfg net
       {| subject := mail_subject (length events);
          from := text_of (GMAIL_USER cfg);
          to := text_of (RECIPIENTS cfg);
          body := text |}) (entered events w).
Proof.
  unfold mail_ready, notify_email, enter_notify. intros Hcfg.
  unfold bind at 1.
  by destruct (truthy (GMAIL_USER cfg)), (truthy (GMAIL_APP_PASSWORD cfg)),
       (truthy (RECIPIENTS cfg)).
Qed.

Lemma notify_relay_failure (events : list json) (w : world) :
  smtp net ≠ Accepted →
  ∃ e, notify_email py_repr cfg net events w = (Raise e, entered events w).
Proof.
  intros Hsmtp. destruct (mail_ready cfg) eqn:Hcfg.
  - rewrite notify_with_credentials by done. unfold bind, lift, smtp_session.
    destruct (mail_body py_repr events) as [text|x]; [|by eexists].
    destruct (smtp net); [done|by eexists..].
  - rewrite notify_without_credentials by done. by eexists.
Qed.


(** Whatever its outcome, the notifier leaves the store file alone and
    records its call. *)
Lemma notify_email_world (events : list json) (w : world) :
  db_file (notify_email py_repr cfg net events w).2 = db_file w
  ∧ notify_calls (notify_email py_repr cfg net events w).2
    = (notify_calls w ++ [events])%list.
Proof.
  destruct (mail_ready cfg) eqn:Hcfg.
  - rewrite notify_with_credentials by done. unfold bind, lift, smtp_session.
    destruct (mail_body py_repr events) as [text|x]; [|done].
    by destruct (smtp net).
  - by rewrite notify_without_credentials.
Qed.

Lemma has_new_id_true (N : gset string) (e : json) :
  has_new_id N e = true ↔ ∃ k, event_id e = Ok k ∧ k ∈ N.
Proof.
  unfold has_new_id. destruct (event_id e) as [k|x].
  - rewrite bool_decide_eq_true. split; [by exists k|].
    by intros (k' & [= <-] & Hk).
  - split; [done|]. by intros (k & Hk & _).
Qed.

Lemma event_details_well_shaped (event : json) :
  well_shaped event = true →
  event_details py_repr event = Ok (block_of py_repr event).
Proof.
  unfold well_shaped, event_details, block_of, first_venue.
  destruct event as [| | | | |ms]; try done. cbn.
  destruct (lookup_member "dates" ms) as [[| | | | |ds]|]; try done; cbn;
    [destruct (lookup_member "start" ds) as [[| | | | |ss]|]; try done; cbn|];
    (destruct (lookup_member "_embedded" ms) as [[| | | | |es]|]; try done; cbn;
     [destruct (lookup_member "venues" es) as [[| | | |[|v vs]|]|];
        try done; cbn;
        [destruct v as [| | | | |vm]; try done; cbn;
         destruct (lookup_member "city" vm) as [[| | | | |cs]|]; try done|]|]);
    cbn; intros _; repeat f_equal;
    repeat match goal with
           | |- context [lookup_member ?k ?m] => destruct (lookup_member k m)
           end; done.
Qed.

Lemma body_blocks_well_shaped (events : list json) :
  Forall (λ e, well_shaped e = true) events →
  body_blocks py_repr events = Ok (block_of py_repr <$> events).
Proof.
  induction 1 as [|e es He _ IH]; [done|].
  cbn [body_blocks]. rewrite event_details_well_shaped by done.
  cbn [rbind]. by rewrite IH.
Qed.

(** On events the notifier can read, the body is the header followed by one
    block per event, in the order of the list, joined by newlines. *)
Lemma mail_body_well_shaped (events : list json) :
  Forall (λ e, well_shaped e = true) events →
  mail_body py_repr events
  = Ok (join nl (body_header (length events) :: (block_of py_repr <$> events))).
Proof.
  intros Hall. unfold mail_body. by rewrite body_blocks_well_shaped.
Qed.

(** *** The orchestrator *)

(** C1: the diff of a run is the set difference of the fetched ids and the
    known ids.  When every fetched id is known the diff is empty, the
    notifier is not called and nothing is mailed; otherwise the notifier is
    called once, with the fetched events whose id lies in the difference. *)
Theorem c1_diff_is_set_difference (w : world) (K C : gset string) (evs : json) :
  truthy (API_KEY cfg) = true →
  load w = (Ok K, w) →
  fetch w = (Ok evs, w) →
  current_ids evs = Ok C →
  (∀ x, x ∈ new_ids C K ↔ x ∈ C ∧ x ∉ K)
  ∧ (C ⊆ K →
     new_ids C K = ∅
     ∧ ∃ w', run w = (Ok tt, w')
             ∧ notify_calls w' = notify_calls w
             ∧ outbox w' = outbox w)
  ∧ (¬ C ⊆ K →
     new_ids C K ≠ ∅
     ∧ ∃ items, py_iter evs = Ok items
                ∧ notify_calls (run w).2
                  = (notify_calls w
                     ++ [List.filter (has_new_id (new_ids C K)) items])%list).
Proof.
  intros Hkey Hload Hfetch Hids. split; [|split].
  - intros x. unfold new_ids. apply elem_of_difference.
  - intros Hsub. split; [by apply new_ids_empty_iff|].
    eexists. by rewrite (main_nothing_new w K C evs).
  - intros Hsub. split; [by rewrite new_ids_empty_iff|].
    destruct (main_something_new w K C evs) as (items & Hit & _ & Hrun); [done..|].
    exists items. split; [done|]. rewrite Hrun. unfold new_ids, bind.
    pose proof (notify_email_world (List.filter (has_new_id (C ∖ K)) items) w)
      as [_ Hcalls].
    by destruct (notify_email _ _ _ _ w) as [[[]|x] w1].
Qed.

(** C3, as the code has it: after a successful run the store holds exactly
    the ids fetched in that run.  That is the union of the known ids with the
    fetched ones exactly when every known id was fetched again. *)
Theorem c3_saved_set_is_fetched_set (w w' : world) (K C : gset string) (evs : json) :
  run w = (Ok tt, w') →
  load w = (Ok K, w) →
  fetch w = (Ok evs, w) →
  current_ids evs = Ok C →
  load w' = (Ok C, w') ∧ (C = K ∪ C ↔ K ⊆ C).
Proof.
  intros Hrun Hload Hfetch Hids. split; [|apply union_absorbs_iff].
  assert (truthy (API_KEY cfg) = true) as Hkey.
  { destruct (truthy (API_KEY cfg)) eqn:Hk; [done|].
    unfold main in Hrun. by rewrite Hk in Hrun. }
  destruct (decide (C ⊆ K)) as [Hsub|Hsub].
  - rewrite (main_nothing_new w K C evs) in Hrun by done.
    injection Hrun as <-. apply load_save.
  - destruct (main_something_new w K C evs) as (items & _ & _ & Hrun'); [done..|].
    rewrite Hrun' in Hrun. unfold bind in Hrun.
    destruct (notify_email _ _ _ _ w) as [[[]|x] w1]; [|done].
    injection Hrun as <-. apply load_save.
Qed.

(** C4: when the diff is not empty and a mail setting is missing or the relay
    fails, the run raises, nothing is mailed, and the store file is the one
    the run started with.  With a missing setting the exception is the
    [ValueError] of [notify_email]. *)
Theorem c4_failed_notification_keeps_store
    (w : world) (K C : gset string) (evs : json) :
  truthy (API_KEY cfg) = true →
  load w = (Ok K, w) →
  fetch w = (Ok evs, w) →
  current_ids evs = Ok C →
  new_ids C K ≠ ∅ →
  mail_ready cfg = false ∨ smtp net ≠ Accepted →
  ∃ e w', run w = (Raise e, w')
          ∧ db_file w' = db_file w
          ∧ outbox w' = outbox w
          ∧ (mail_ready cfg = false → e = ValueError "Email credentials not set.").
Proof.
  intros Hkey Hload Hfetch Hids Hnew Hfail.
  rewrite new_ids_empty_iff in Hnew.
  destruct (main_something_new w K C evs) as (items & _ & _ & Hrun); [done..|].
  set (new_events := List.filter (has_new_id (C ∖ K)) items) in Hrun.
  destruct (mail_ready cfg) eqn:Hcfg.
  - destruct Hfail as [|Hsmtp]; [done|].
    destruct (notify_relay_failure new_events w Hsmtp) as [e He].
    exists e, (entered new_events w). rewrite Hrun. unfold bind. by rewrite He.
  - exists (ValueError "Email credentials not set."), (entered new_events w).
    rewrite Hrun. unfold bind. by rewrite notify_without_credentials.
Qed.

(** C5: when the request to the event source fails in transport or comes back
    with a rejected status, the run ends with that exception of the
    [RequestException] family and the world is untouched: nothing is saved
    and the notifier is not called. *)
Theorem c5_fetch_failure_is_fatal (w : world) (K : gset string) :
  truthy (API_KEY cfg) = true →
  load w = (Ok K, w) →
  http net = NoConnection ∨ (∃ status, http net = BadStatus status) →
  ∃ e, is_request_exception e = true
       ∧ fetch w = (Raise e, w)
       ∧ run w = (Raise e, w).
Proof.
  intros Hkey Hload Hhttp.
  assert (∃ e, is_request_exception e = true ∧ fetch w = (Raise e, w))
    as (e & He & Hfetch).
  { unfold get_artist_events, lift.
    destruct Hhttp as [->|[status ->]];
      [by exists ConnectionError|by exists (HTTPError status)]. }
  exists e. split; [done|]. split; [done|].
  unfold main. rewrite Hkey. cbn [negb].
  unfold bind at 1. rewrite Hload. unfold bind at 1. by rewrite Hfetch.
Qed.

(** C9: when every fetched id is already known, the run completes and saves
    the fetched ids although none of the three mail settings is set; the
    notifier is not called.  With the same settings and a new id the run
    raises the notifier's [ValueError]. *)
Theorem c9_credentials_unused_without_news
    (w : world) (K C : gset string) (evs : json) :
  truthy (API_KEY cfg) = true →
  GMAIL_USER cfg = None →
  GMAIL_APP_PASSWORD cfg = None →
  RECIPIENTS cfg = None →
  load w = (Ok K, w) →
  fetch w = (Ok evs, w) →
  current_ids evs = Ok C →
  (C ⊆ K →
   ∃ w', run w = (Ok tt, w')
         ∧ load w' = (Ok C, w')
         ∧ notify_calls w' = notify_calls w
         ∧ outbox w' = outbox w)
  ∧ (¬ C ⊆ K →
     ∃ w', run w = (Raise (ValueError "Email credentials not set."), w')
           ∧ db_file w' = db_file w).
Proof.
  intros Hkey Huser Hpw Hto Hload Hfetch Hids. split; intros Hsub.
  - eexists. rewrite (main_nothing_new w K C evs) by done.
    split; [done|]. split; [|done]. apply load_save.
  - destruct (main_something_new w K C evs) as (items & _ & _ & Hrun); [done..|].
    eexists. rewrite Hrun. unfold bind.
    rewrite notify_without_credentials; [done|].
    unfold mail_ready. by rewrite Huser.
Qed.

(** C10: when the accepted response is an object without the [_embedded]
    member, or whose [_embedded] object has no [events] member, the fetch
    returns the empty list, and the run replaces the store by the empty
    array whatever ids were known. *)
Theorem c10_missing_events_empties_store
    (w : world) (K : gset string) (members : list (string * json)) :
  truthy (API_KEY cfg) = true →
  load w = (Ok K, w) →
  http net = Reply (Some (JObj members)) →
  lookup_member "_embedded" members = None
  ∨ (∃ inner, lookup_member "_embedded" members = Some (JObj inner)
              ∧ lookup_member "events" inner = None) →
  fetch w = (Ok (JArr []), w)
  ∧ ∃ w', run w = (Ok tt, w')
          ∧ db_file w' = Some (Json (JArr []))
          ∧ load w' = (Ok ∅, w').
Proof.
  intros Hkey Hload Hhttp Hbody.
  assert (fetch w = (Ok (JArr []), w)) as Hfetch.
  { unfold get_artist_events, lift. rewrite Hhttp. cbn [py_get].
    destruct Hbody as [->|(inner & -> & Hin)]; cbn; [done|]. by rewrite Hin. }
  split; [done|]. eexists.
  rewrite (main_nothing_new w K ∅ (JArr [])); [|done..|apply empty_subseteq].
  assert (set_to_list str_hash ∅ = []) as ->.
  { apply Permutation_nil_r. by rewrite set_to_list_perm, elements_empty. }
  done.
Qed.

Lemma id_set_elem (events : list json) (C : gset string) (k : string) :
  id_set events = Ok C →
  k ∈ C ↔ ∃ e, e ∈ events ∧ event_id e = Ok k.
Proof.
  revert C. induction events as [|e es IH]; intros C; cbn [id_set].
  - intros [= <-]. split; [by intros ?%not_elem_of_empty|].
    by intros (e & ?%not_elem_of_nil & _).
  - destruct (event_id e) as [k'|x] eqn:He; [|done]. cbn [rbind].
    destruct (id_set es) as [ids|x]; [|done]. cbn [rbind]. intros [= <-].
    rewrite elem_of_union, elem_of_singleton, (IH ids) by done. split.
    + intros [->|(e' & Hin & He')].
      * exists e. split; [left|done].
      * exists e'. split; [by right|done].
    + intros (e' & Hin & He'). apply elem_of_cons in Hin as [->|Hin].
      * left. congruence.
      * right. by exists e'.
Qed.



(** C6, where the code leaves the claim: an event whose venue list is
    present and empty makes the notifier raise [IndexError] while it builds
    the body, so no body with a block for that event exists and nothing is
    mailed; a run that finds this event new ends with the exception and the
    store file it started with. *)
Theorem c6_empty_venue_list_raises (w : world) :
  event_details py_repr Sample.no_venue_event = Raise IndexError
  ∧ mail_body py_repr [Sample.no_venue_event] = Raise IndexError
  ∧ notify_email py_repr Sample.cfg_full (Sample.net_of [Sample.no_venue_event])
      [Sample.no_venue_event] w
    = (Raise IndexError, entered [Sample.no_venue_event] w)
  ∧ main py_repr str_hash Sample.cfg_full
      (Sample.net_of [Sample.event "A" "Seychelles"; Sample.no_venue_event])
      (Sample.store ["A"])
    = (Raise IndexError, entered [Sample.no_venue_event] (Sample.store ["A"])).
Proof.
  split; [done|]. split; [done|]. split; [done|].
  unfold main. cbn -[new_ids notify_email save_known_events decide].
  rewrite decide_False.
  - done.
  - intros Hempty. assert ("B" ∈ new_ids ({["A"]} ∪ ({["B"]} ∪ ∅)) ({["A"]} ∪ ∅)) as HB.
    { apply elem_of_difference. split.
      - apply elem_of_union. right. apply elem_of_union. left.
        by apply elem_of_singleton.
      - rewrite elem_of_union, elem_of_singleton.
        intros [[=]|?%not_elem_of_empty]. done. }
    rewrite Hempty in HB. by apply not_elem_of_empty in HB.
Qed.

End Properties.

(** ** Runs as a whole, and runs in sequence *)

Section Runs.

Variable py_repr : json → string.
Variable str_hash : string → N.

Local Abbreviation load := load_known_events.
Local Abbreviation run := (main py_repr str_hash).
Local Abbreviation key_error :=
  (ValueError "Error: TICKETMASTER_API_KEY environment variable is not set.").

(** Loading looks at the store file only. *)
Lemma load_same_file (w1 w2 : world) :
  db_file w1 = db_file w2 → (load w1).1 = (load w2).1.
Proof. unfold load_known_events. intros ->. by destruct (db_file w2) as [[]|]. Qed.

Lemma load_keeps_world (w : world) : (load w).2 = w.
Proof. unfold load_known_events. by destruct (db_file w) as [[]|]. Qed.

Lemma fetch_any_world (net : network) (w1 w2 : world) (r : result json) :
  get_artist_events net ARTIST_ID w1 = (r, w1) →
  get_artist_events net ARTIST_ID w2 = (r, w2).
Proof. unfold get_artist_events, lift. by intros [= ->]. Qed.

(** What a run that returns normally has gone through. *)
Lemma main_ok_inv (cfg : config) (net : network) (w w' : world) :
  run cfg net w = (Ok tt, w') →
  truthy (API_KEY cfg) = true
  ∧ ∃ K evs C,
      load w = (Ok K, w)
      ∧ get_artist_events net ARTIST_ID w = (Ok evs, w)
      ∧ current_ids evs = Ok C
      ∧ db_file w' = Some (Json (JArr (JStr <$> set_to_list str_hash C)))
      ∧ run cfg net w
        = ((if decide (new_ids C K = ∅) then ret tt
            else do new_events <- lift (select_new evs (new_ids C K));
                 notify_email py_repr cfg net new_events) ;;
           save_known_events str_hash C) w.
Proof.
  intros Hrun.
  destruct (truthy (API_KEY cfg)) eqn:Hkey;
    [|unfold main in Hrun; by rewrite Hkey in Hrun].
  split; [done|].
  pose proof Hrun as Hrun0.
  unfold main in Hrun. rewrite Hkey in Hrun. cbn [negb] in Hrun.
  unfold bind at 1 in Hrun.
  pose proof (load_keeps_world w) as Hlw.
  destruct (load w) as [[K|x] w0] eqn:Hload; cbn in Hlw; subst w0; [|done].
  unfold bind at 1 in Hrun.
  destruct (get_artist_events net ARTIST_ID w) as [[evs|x] w0] eqn:Hfetch;
    (assert (w0 = w) as -> by (unfold get_artist_events, lift in Hfetch; congruence));
    [|done].
  unfold bind at 1, lift at 1 in Hrun.
  destruct (current_ids evs) as [C|x] eqn:Hids; [|done].
  exists K, evs, C. split; [done|]. split; [done|]. split; [done|].
  pose proof (main_steps py_repr str_hash cfg net w K C evs Hkey Hload Hfetch Hids)
    as Hsteps.
  split; [|done]. clear Hrun. rewrite Hsteps in Hrun0. unfold bind in Hrun0.
  destruct (decide (new_ids C K = ∅)).
  - cbn in Hrun0. by injection Hrun0 as <-.
  - destruct (lift (select_new evs (new_ids C K)) w) as [[l|x] w1]; [|done].
    destruct (notify_email py_repr cfg net l w1) as [[[]|x] w2]; [|done].
    cbn in Hrun0. by injection Hrun0 as <-.
Qed.

Lemma fetch_same_http (net net' : network) (w w' : world) :
  http net' = http net →
  (get_artist_events net' ARTIST_ID w').1 = (get_artist_events net ARTIST_ID w).1.
Proof. unfold get_artist_events, lift. by intros ->. Qed.

Lemma fetch_keeps_world (net : network) (w : world) :
  (get_artist_events net ARTIST_ID w).2 = w.
Proof. done. Qed.

Lemma load_written (C : gset string) (w : world) :
  db_file w = Some (Json (JArr (JStr <$> set_to_list str_hash C))) →
  load w = (Ok C, w).
Proof.
  intros Hf. rewrite (load_array_of_strings _ w Hf).
  by rewrite list_to_set_set_to_list.
Qed.

(** X1: the entry block of the script behaves as [main] on every
    configuration: its own test of the key adds nothing.  Without a key both
    raise the [ValueError] and leave the world as it was: no file is read,
    no request is made, nothing is mailed or saved. *)
Theorem missing_api_key_stops_before_io (cfg : config) (net : network) (w : world) :
  script py_repr str_hash cfg net w = run cfg net w
  ∧ (truthy (API_KEY cfg) = false → run cfg net w = (Raise key_error, w)).
Proof.
  unfold script, main. by destruct (truthy (API_KEY cfg)).
Qed.

Lemma main_raise_keeps_file
    (cfg : config) (net : network) (w w' : world) (e : exn) :
  run cfg net w = (Raise e, w') → db_file w' = db_file w.
Proof.
  intros Hrun. unfold main in Hrun.
  destruct (truthy (API_KEY cfg)); cbn [negb] in Hrun;
    [|by injection Hrun as _ <-].
  unfold bind at 1 in Hrun.
  pose proof (load_keeps_world w) as Hlw.
  destruct (load w) as [[K|x] w0]; cbn in Hlw; subst w0;
    [|by injection Hrun as _ <-].
  unfold bind at 1 in Hrun.
  pose proof (fetch_keeps_world net w) as Hfw.
  destruct (get_artist_events net ARTIST_ID w) as [[evs|x] w0]; cbn in Hfw;
    subst w0; [|by injection Hrun as _ <-].
  unfold bind at 1, lift at 1 in Hrun.
  destruct (current_ids evs) as [C|x]; [|by injection Hrun as _ <-].
  unfold bind at 1 in Hrun.
  destruct (decide (new_ids C K = ∅)); [done|].
  unfold bind at 1, lift at 1 in Hrun.
  destruct (select_new evs (new_ids C K)) as [l|x]; [|by injection Hrun as _ <-].
  destruct (notify_email_world py_repr cfg net l w) as [Hfile _].
  destruct (notify_email py_repr cfg net l w) as [[[]|x] w2]; [done|].
  by injection Hrun as _ <-.
Qed.

(** X2: a run that raises ends with the store file it started with.  Every
    raise of the model comes before the save step, whether from the test of
    the key, the load, the fetch, the reading of the ids or the notifier;
    the write of the store file itself is taken to succeed. *)
Theorem failed_run_keeps_store_file
    (cfg : config) (net : network) (w w' : world) (e : exn) :
  run cfg net w = (Raise e, w') → db_file w' = db_file w.
Proof. apply main_raise_keeps_file. Qed.

Lemma event_id_string (e : json) (k : string) :
  event_id e = Ok k ↔ py_getitem e "id" = Ok (JStr k).
Proof.
  unfold event_id. destruct (py_getitem e "id") as [v|x]; cbn [rbind].
  - destruct v; cbn; split; intros H; try done; congruence.
  - done.
Qed.

(** X3: when the id of every fetched event is a string, a run that returns
    normally leaves a store file that is a JSON array of strings without
    repetition, and a string is in it exactly when it is the id of one of
    the fetched events. *)
Theorem saved_store_lists_each_fetched_id_once
    (cfg : config) (net : network) (w w' : world)
    (evs : json) (items : list json) :
  get_artist_events net ARTIST_ID w = (Ok evs, w) →
  py_iter evs = Ok items →
  Forall (λ e, ∃ s, py_getitem e "id" = Ok (JStr s)) items →
  run cfg net w = (Ok tt, w') →
  ∃ ids,
    db_file w' = Some (Json (JArr (JStr <$> ids)))
    ∧ NoDup ids
    ∧ ∀ k, k ∈ ids ↔ ∃ e, e ∈ items ∧ py_getitem e "id" = Ok (JStr k).
Proof.
  intros Hfetch Hit _
    (_ & K & evs0 & C & _ & Hfetch0 & Hids & Hfile & _)%main_ok_inv.
  assert (evs0 = evs) as -> by congruence.
  destruct (select_new_filter evs C ∅ Hids) as (items0 & Hit0 & Hset & _).
  assert (items0 = items) as -> by congruence.
  exists (set_to_list str_hash C).
  split; [done|]. split.
  - rewrite set_to_list_perm. apply NoDup_elements.
  - intros k. rewrite set_to_list_perm, elem_of_elements.
    rewrite (id_set_elem items C k Hset).
    split; intros (e & Hin & He); exists e; (split; [done|]);
      by apply event_id_string.
Qed.

(** X4: a second run on the same response finds nothing new.  After a run
    that returned normally, any later run that gets the same response from
    the event source returns normally without calling the notifier and
    without mailing, and rewrites the store file with the same ids, in the
    order of its own process.  This holds whatever the hash order, the mail
    settings and the relay are at the later run. *)
Theorem rerun_on_same_response_is_silent
    (str_hash' : string → N) (cfg cfg' : config) (net net' : network)
    (w w1 : world) :
  run cfg net w = (Ok tt, w1) →
  truthy (API_KEY cfg') = true →
  http net' = http net →
  ∃ C w2 ids1 ids2,
    load w1 = (Ok C, w1)
    ∧ main py_repr str_hash' cfg' net' w1 = (Ok tt, w2)
    ∧ notify_calls w2 = notify_calls w1
    ∧ outbox w2 = outbox w1
    ∧ load w2 = (Ok C, w2)
    ∧ db_file w1 = Some (Json (JArr (JStr <$> ids1)))
    ∧ db_file w2 = Some (Json (JArr (JStr <$> ids2)))
    ∧ ids2 ≡ₚ ids1.
Proof.
  intros (_ & K & evs & C & _ & Hfetch & Hids & Hfile & _)%main_ok_inv Hkey Hhttp.
  assert (get_artist_events net' ARTIST_ID w1 = (Ok evs, w1)) as Hfetch'.
  { pose proof (fetch_same_http net net' w w1 Hhttp) as H1.
    pose proof (fetch_keeps_world net' w1) as H2.
    rewrite Hfetch in H1. destruct (get_artist_events net' ARTIST_ID w1).
    cbn in *. by subst. }
  pose proof (load_written C w1 Hfile) as Hload1.
  exists C, (written (set_to_list str_hash' C) w1),
    (set_to_list str_hash C), (set_to_list str_hash' C).
  split; [done|]. split.
  { by rewrite (main_nothing_new py_repr str_hash' cfg' net' w1 C C evs). }
  split; [done|]. split; [done|]. split.
  { rewrite (load_array_of_strings (set_to_list str_hash' C)) by done.
    by rewrite list_to_set_set_to_list. }
  split; [done|]. split; [done|].
  by rewrite !set_to_list_perm.
Qed.

(** X5: the notification is repeated after a failed one.  When a run with
    new events raises, the next run on the same response, whatever its mail
    settings and relay, hands the notifier the same list of events again. *)
Theorem failed_notification_is_repeated
    (cfg cfg' : config) (net net' : network) (w w' : world)
    (K C : gset string) (evs : json) (e : exn) :
  truthy (API_KEY cfg) = true →
  load w = (Ok K, w) →
  get_artist_events net ARTIST_ID w = (Ok evs, w) →
  current_ids evs = Ok C →
  ¬ C ⊆ K →
  run cfg net w = (Raise e, w') →
  truthy (API_KEY cfg') = true →
  http net' = http net →
  ∃ items,
    py_iter evs = Ok items
    ∧ notify_calls w'
      = (notify_calls w ++ [List.filter (has_new_id (C ∖ K)) items])%list
    ∧ notify_calls (run cfg' net' w').2
      = (notify_calls w' ++ [List.filter (has_new_id (C ∖ K)) items])%list.
Proof.
  intros Hkey Hload Hfetch Hids Hsub Hrun Hkey' Hhttp.
  pose proof (main_raise_keeps_file cfg net w w' e Hrun) as Hfile.
  destruct (main_something_new py_repr str_hash cfg net w K C evs)
    as (items & Hit & _ & Hsteps); [done..|].
  exists items. split; [done|].
  set (new := List.filter (has_new_id (C ∖ K)) items) in *.
  assert (notify_calls w' = (notify_calls w ++ [new])%list) as Hcalls.
  { rewrite Hsteps in Hrun. unfold bind in Hrun.
    destruct (notify_email_world py_repr cfg net new w) as [_ Hc].
    destruct (notify_email py_repr cfg net new w) as [[[]|x] w2]; [done|].
    by injection Hrun as _ <-. }
  split; [done|].
  assert (load w' = (Ok K, w')) as Hload'.
  { pose proof (load_same_file w' w Hfile) as H1.
    pose proof (load_keeps_world w') as H2.
    rewrite Hload in H1. destruct (load w'). cbn in *. by subst. }
  assert (get_artist_events net' ARTIST_ID w' = (Ok evs, w')) as Hfetch'.
  { pose proof (fetch_same_http net net' w w' Hhttp) as H1.
    pose proof (fetch_keeps_world net' w') as H2.
    rewrite Hfetch in H1. destruct (get_artist_events net' ARTIST_ID w').
    cbn in *. by subst. }
  destruct (main_something_new py_repr str_hash cfg' net' w' K C evs)
    as (items' & Hit' & _ & Hsteps'); [done..|].
  assert (items' = items) as -> by congruence.
  rewrite Hsteps'. unfold bind. fold new.
  destruct (notify_email_world py_repr cfg' net' new w') as [_ Hc].
  by destruct (notify_email py_repr cfg' net' new w') as [[[]|x] w2].
Qed.

(** X6: an event that leaves the response and comes back is announced
    again.  After a run that returned normally on a response without the id
    [k], a later run whose response has an event with id [k] calls the
    notifier with that event, whatever the store held before the first
    run. *)
Theorem returning_event_is_announced_again
    (cfg cfg' : config) (net net' : network) (w w1 : world)
    (evs evs' : json) (C C' : gset string) (items' : list json)
    (k : string) (event : json) :
  run cfg net w = (Ok tt, w1) →
  get_artist_events net ARTIST_ID w = (Ok evs, w) →
  current_ids evs = Ok C →
  k ∉ C →
  truthy (API_KEY cfg') = true →
  get_artist_events net' ARTIST_ID w1 = (Ok evs', w1) →
  py_iter evs' = Ok items' →
  current_ids evs' = Ok C' →
  event ∈ items' →
  event_id event = Ok k →
  ∃ new_events,
    notify_calls (run cfg' net' w1).2 = (notify_calls w1 ++ [new_events])%list
    ∧ event ∈ new_events.
Proof.
  intros Hrun Hfetch Hids Hk Hkey' Hfetch' Hit' Hids' Hin Hev.
  apply main_ok_inv in Hrun as (_ & K & evs0 & C0 & _ & Hf0 & Hi0 & Hfile & _).
  assert (evs0 = evs) as -> by congruence.
  assert (C0 = C) as -> by congruence.
  pose proof (load_written C w1 Hfile) as Hload1.
  assert (k ∈ C') as HkC'.
  { destruct (select_new_filter evs' C' ∅ Hids') as (its & Hits & Hset & _).
    assert (its = items') as -> by congruence.
    apply (id_set_elem items' C' k Hset). by exists event. }
  assert (¬ C' ⊆ C) as Hsub by (intros Hsub; by apply Hk, Hsub).
  destruct (main_something_new py_repr str_hash cfg' net' w1 C C' evs')
    as (its & Hits & _ & Hsteps); [done..|].
  assert (its = items') as -> by congruence.
  exists (List.filter (has_new_id (C' ∖ C)) items'). split.
  - rewrite Hsteps. unfold bind.
    destruct (notify_email_world py_repr cfg' net'
                (List.filter (has_new_id (C' ∖ C)) items') w1) as [_ Hc].
    by destruct (notify_email py_repr cfg' net' _ w1) as [[[]|x] w2].
  - apply list_elem_of_In, filter_In. split; [by apply list_elem_of_In|].
    apply has_new_id_true. exists k. split; [done|].
    by apply elem_of_difference.
Qed.

End Runs.

(** ** The parts of a run *)

Section Parts.

Variable py_repr : json → string.
Variable str_hash : string → N.
Variable cfg : config.
Variable net : network.

Local Abbreviation notify := (notify_email py_repr cfg net).
Local Abbreviation fetch := (get_artist_events net ARTIST_ID).
Local Abbreviation run := (main py_repr str_hash cfg net).

(** *** Which events the notifier can read *)

Lemma event_details_ill_shaped (event : json) :
  well_shaped event = false → ∃ x, event_details py_repr event = Raise x.
Proof.
  intros Hws.
  destruct (event_details py_repr event) as [b|x] eqn:Hd; [exfalso|by eexists].
  revert Hws Hd. unfold well_shaped, event_details.
  destruct event as [| | | | |ms]; try done. cbn.
  destruct (lookup_member "dates" ms) as [[| | | | |ds]|]; try done; cbn.
  all: try (destruct (lookup_member "start" ds) as [[| | | | |ss]|];
            try done; cbn).
  all: destruct (lookup_member "_embedded" ms) as [[| | | | |es]|];
    try done; cbn.
  all: try (destruct (lookup_member "venues" es) as [[| | |[|c t]|[|v vs]|]|];
            try done; cbn).
  all: try (destruct v as [| | | | |vm]; try done; cbn).
  all: try (destruct (lookup_member "city" vm) as [[| | | | |cs]|]; try done).
Qed.

Lemma body_blocks_ok_inv (events : list json) (blocks : list string) :
  body_blocks py_repr events = Ok blocks →
  Forall (λ e, well_shaped e = true) events.
Proof.
  revert blocks. induction events as [|e es IH]; intros blocks; [by constructor|].
  cbn [body_blocks]. destruct (well_shaped e) eqn:He.
  - rewrite (event_details_well_shaped py_repr e He). cbn [rbind].
    destruct (body_blocks py_repr es) as [bs|x]; [|done]. intros _.
    constructor; [done|]. by apply (IH bs).
  - destruct (event_details_ill_shaped e He) as [x ->]. done.
Qed.

Lemma mail_body_ok_iff (events : list json) :
  (∃ text, mail_body py_repr events = Ok text)
  ↔ Forall (λ e, well_shaped e = true) events.
Proof.
  split.
  - intros [text Hbody]. unfold mail_body in Hbody.
    destruct (body_blocks py_repr events) as [blocks|x] eqn:Hb; [|done].
    by apply (body_blocks_ok_inv events blocks).
  - intros Hall. eexists. by apply mail_body_well_shaped.
Qed.

(** X7: the notifier can build the body exactly for lists of events in
    which every nested value it calls [get] on is a dict when present and
    every venue list that is present has a first element. *)
Theorem mail_body_ok_iff_well_shaped (events : list json) :
  (∃ text, mail_body py_repr events = Ok text)
  ↔ Forall (λ e, well_shaped e = true) events.
Proof. apply mail_body_ok_iff. Qed.

Lemma body_blocks_first_failure (good rest : list json) (bad : json) (x : exn) :
  Forall (λ e, well_shaped e = true) good →
  event_details py_repr bad = Raise x →
  body_blocks py_repr (good ++ bad :: rest) = Raise x.
Proof.
  intros Hgood Hbad. induction Hgood as [|e es He _ IH]; cbn [app body_blocks].
  - by rewrite Hbad.
  - rewrite (event_details_well_shaped py_repr e He). cbn [rbind]. by rewrite IH.
Qed.

(** X8: one event the notifier cannot read spoils the whole notification.
    With the mail settings present, the call raises the exception of the
    first such event, and nothing is mailed, not even for the events before
    it. *)
Theorem unreadable_event_stops_notification
    (good rest : list json) (bad : json) (x : exn) (w : world) :
  mail_ready cfg = true →
  Forall (λ e, well_shaped e = true) good →
  event_details py_repr bad = Raise x →
  notify (good ++ bad :: rest) w
  = (Raise x, entered (good ++ bad :: rest) w)
  ∧ outbox (notify (good ++ bad :: rest) w).2 = outbox w.
Proof.
  intros Hcfg Hgood Hbad.
  assert (notify (good ++ bad :: rest) w
          = (Raise x, entered (good ++ bad :: rest) w)) as Hn.
  { rewrite notify_with_credentials by done. unfold bind, lift, mail_body.
    by rewrite (body_blocks_first_failure good rest bad x). }
  split; [done|]. by rewrite Hn.
Qed.

Lemma notify_outbox (events : list json) (w : world) :
  outbox (notify events w).2 = outbox w
  ∨ ∃ m, outbox (notify events w).2 = (outbox w ++ [m])%list
         ∧ subject (msg m) = mail_subject (length events).
Proof.
  destruct (mail_ready cfg) eqn:Hcfg.
  - rewrite notify_with_credentials by done. unfold bind, lift, smtp_session.
    destruct (mail_body py_repr events) as [text|x]; [|by left].
    destruct (smtp net); [|by left..]. right. by eexists.
  - rewrite notify_without_credentials by done. by left.
Qed.


(** *** The event source *)

(** X10: the fetch returns normally exactly when the response is accepted,
    its body is a JSON object and the [_embedded] member, when present, is an
    object.  What it returns is the [events] member of [_embedded] as it is,
    list or not, and the empty list when either member is missing. *)
Theorem get_artist_events_ok_iff (v : json) (w : world) :
  fetch w = (Ok v, w)
  ↔ ∃ data,
      http net = Reply (Some data)
      ∧ is_dict data = true
      ∧ dict_if_present (dig ["_embedded"] data) = true
      ∧ v = default (JArr []) (dig ["_embedded"; "events"] data).
Proof.
  unfold get_artist_events, lift. split.
  - destruct (http net) as [| |[data|]]; try done.
    destruct data as [| | | | |ms]; try done. cbn.
    destruct (lookup_member "_embedded" ms) as [[| | | | |es]|] eqn:Hemb;
      try done; cbn; intros [= <-]; exists (JObj ms); cbn; rewrite Hemb; cbn.
    + repeat split. by destruct (lookup_member "events" es).
    + done.
  - intros (data & -> & Hdict & Hemb & ->).
    destruct data as [| | | | |ms]; try done. cbn in *.
    destruct (lookup_member "_embedded" ms) as [[| | | | |es]|]; try done; cbn.
    by destruct (lookup_member "events" es).
Qed.

(** *** Failures before the diff *)




Lemma id_set_first_failure (good rest : list json) (bad : json) (x : exn) :
  Forall (λ e, ∃ k, event_id e = Ok k) good →
  event_id bad = Raise x →
  id_set (good ++ bad :: rest) = Raise x.
Proof.
  intros Hgood Hbad. induction Hgood as [|e es [k He] _ IH]; cbn [app id_set].
  - by rewrite Hbad.
  - rewrite He. cbn [rbind]. by rewrite IH.
Qed.

(** X12: one fetched event whose id cannot be read stops the run before the
    diff.  After events whose ids are strings, an event on which
    [event["id"]] raises (a [KeyError] when the event has no [id] member),
    or whose id is a list or an object (a [TypeError]), makes the run raise
    that exception and leave the world as it is: nothing is saved, and the
    notifier is not called for the other events either. *)
Theorem unreadable_id_stops_run
    (w : world) (K : gset string) (evs : json)
    (good rest : list json) (bad : json) (x : exn) :
  truthy (API_KEY cfg) = true →
  load_known_events w = (Ok K, w) →
  fetch w = (Ok evs, w) →
  py_iter evs = Ok (good ++ bad :: rest)%list →
  Forall (λ e, ∃ k, py_getitem e "id" = Ok (JStr k)) good →
  py_getitem bad "id" = Raise x
  ∨ (∃ v, py_getitem bad "id" = Ok v ∧ unhashable v = true ∧ x = TypeError) →
  run w = (Raise x, w)
  ∧ (∀ ms, bad = JObj ms → lookup_member "id" ms = None → x = KeyError).
Proof.
  intros Hkey Hload Hfetch Hit Hgood Hbad.
  assert (event_id bad = Raise x) as Hid.
  { unfold event_id. destruct Hbad as [->|(v & -> & Hv & ->)]; [done|].
    by destruct v. }
  split.
  - unfold main. rewrite Hkey. cbn [negb].
    unfold bind at 1. rewrite Hload. unfold bind at 1. rewrite Hfetch.
    unfold bind at 1, lift at 1, current_ids. rewrite Hit. cbn [rbind].
    rewrite (id_set_first_failure good rest bad x); [done| |done].
    eapply Forall_impl; [exact Hgood|]. intros e [k Hk]. exists k.
    unfold event_id. by rewrite Hk.
  - intros ms -> Hms. unfold event_id, py_getitem in Hid.
    rewrite Hms in Hid. cbn in Hid. congruence.
Qed.

(** X15: the store file may name an id several times and in any order: an
    array of strings loads as the set of its strings.  A store file that
    holds a JSON object loads as the set of its keys. *)
Theorem load_known_events_contents (w : world) (doc : json) :
  db_file w = Some (Json doc) →
  (∀ l, doc = JArr (JStr <$> l) →
        ∃ s, load_known_events w = (Ok s, w) ∧ ∀ k, k ∈ s ↔ k ∈ l)
  ∧ (∀ ms, doc = JObj ms →
           ∃ s, load_known_events w = (Ok s, w) ∧ ∀ k, k ∈ s ↔ k ∈ ms.*1).
Proof.
  intros Hf. split.
  - intros l ->. exists (list_to_set l).
    split; [by apply load_array_of_strings|]. intros k. apply elem_of_list_to_set.
  - intros ms ->. exists (list_to_set ms.*1). split.
    + unfold load_known_events, py_set. rewrite Hf. cbn [py_iter rbind].
      by rewrite collect_keys_strings.
    + intros k. apply elem_of_list_to_set.
Qed.

(** X16: the [events] member is not checked to be a list.  When the fetch
    returns an empty object or an empty string, the run goes on as with an
    empty list and empties the store; when it returns any other value that
    is not a list, the run raises [TypeError] and leaves the world as it
    is. *)
Theorem events_that_are_not_a_list (w : world) (K : gset string) (v : json) :
  truthy (API_KEY cfg) = true →
  load_known_events w = (Ok K, w) →
  fetch w = (Ok v, w) →
  (∀ items, v ≠ JArr items) →
  run w = match v with
          | JObj [] | JStr "" => (Ok tt, written [] w)
          | _ => (Raise TypeError, w)
          end.
Proof.
  intros Hkey Hload Hfetch Hlist.
  assert (set_to_list str_hash ∅ = []) as Hnil.
  { apply Permutation_nil_r. by rewrite set_to_list_perm, elements_empty. }
  assert (∀ x, current_ids v = Raise x → run w = (Raise x, w)) as Hraise.
  { intros x Hids. unfold main. rewrite Hkey. cbn [negb].
    unfold bind at 1. rewrite Hload. unfold bind at 1. rewrite Hfetch.
    unfold bind at 1, lift at 1. by rewrite Hids. }
  assert (current_ids v = Ok ∅ → run w = (Ok tt, written [] w)) as Hok.
  { intros Hids.
    rewrite (main_nothing_new py_repr str_hash cfg net w K ∅ v);
      [by rewrite Hnil|done..|apply empty_subseteq]. }
  destruct v as [| | |[|c t]|items|[|[k x] ms]];
    try (by apply Hraise); try (by apply Hok).
  by destruct (Hlist items).
Qed.

(** *** At most one notification *)

Lemma new_events_not_empty (items : list json) (C K : gset string) :
  id_set items = Ok C →
  new_ids C K ≠ ∅ →
  List.filter (has_new_id (new_ids C K)) items ≠ [].
Proof.
  intros Hset [k Hk]%set_choose_L Hnil.
  assert (k ∈ C) as HkC
    by (unfold new_ids in Hk; by apply elem_of_difference in Hk as [? _]).
  apply (id_set_elem items C k Hset) in HkC as (e & Hin & He).
  assert (e ∈ List.filter (has_new_id (new_ids C K)) items) as Hmem.
  { apply list_elem_of_In, filter_In. split; [by apply list_elem_of_In|].
    apply has_new_id_true. by exists k. }
  rewrite Hnil in Hmem. by apply not_elem_of_nil in Hmem.
Qed.

(** X13: a run calls the notifier at most once and never with an empty
    list, and it hands at most one message to the relay; the subject of
    that message counts the events of that one call. *)
Theorem run_notifies_at_most_once (w : world) :
  (notify_calls (run w).2 = notify_calls w ∧ outbox (run w).2 = outbox w)
  ∨ ∃ new_events,
      new_events ≠ []
      ∧ notify_calls (run w).2 = (notify_calls w ++ [new_events])%list
      ∧ (outbox (run w).2 = outbox w
         ∨ ∃ m, outbox (run w).2 = (outbox w ++ [m])%list
                ∧ subject (msg m) = mail_subject (length new_events)).
Proof.
  destruct (run w) as [r w'] eqn:Hrun. cbn [fst snd]. unfold main in Hrun.
  destruct (truthy (API_KEY cfg)); cbn [negb] in Hrun;
    [|injection Hrun as _ <-; by left].
  unfold bind at 1 in Hrun.
  pose proof (load_keeps_world w) as Hlw.
  destruct (load_known_events w) as [[K|x] w0]; cbn in Hlw; subst w0;
    [|injection Hrun as _ <-; by left].
  unfold bind at 1 in Hrun.
  pose proof (fetch_keeps_world net w) as Hfw.
  destruct (fetch w) as [[evs|x] w0]; cbn in Hfw; subst w0;
    [|injection Hrun as _ <-; by left].
  unfold bind at 1, lift at 1 in Hrun.
  destruct (current_ids evs) as [C|x] eqn:Hids;
    [|injection Hrun as _ <-; by left].
  unfold bind at 1 in Hrun.
  destruct (decide (new_ids C K = ∅)) as [|Hne];
    [injection Hrun as _ <-; by left|].
  destruct (select_new_filter evs C (new_ids C K) Hids) as (items & Hit & Hset & Hsel).
  unfold bind at 1, lift at 1 in Hrun. rewrite Hsel in Hrun.
  set (new_events := List.filter (has_new_id (new_ids C K)) items) in *.
  right. exists new_events. split; [by apply new_events_not_empty|].
  destruct (notify_email_world py_repr cfg net new_events w) as [_ Hcalls].
  pose proof (notify_outbox new_events w) as Hout.
  destruct (notify new_events w) as [[[]|x] w2]; cbn in *;
    injection Hrun as <- <-; by split.
Qed.

(** *** The recipients *)

Lemma split_on_length (c : ascii) (s : string) :
  length (split_on c s) = S (count_char c s).
Proof.
  induction s as [|a s IH]; [done|]. cbn [split_on count_char].
  destruct (Ascii.eqb a c); cbn [length]; [by rewrite IH|].
  destruct (split_on c s); cbn in *; lia.
Qed.

Lemma split_on_no_separator (c : ascii) (s : string) :
  Forall (λ p, count_char c p = 0) (split_on c s).
Proof.
  induction s as [|a s IH]; [by repeat constructor|]. cbn [split_on].
  destruct (Ascii.eqb a c) eqn:Hac; [by constructor|].
  destruct (split_on c s) as [|p ps].
  - repeat constructor. cbn. by rewrite Hac.
  - apply Forall_cons in IH as [Hp Hps]. constructor; [|done].
    cbn. by rewrite Hac.
Qed.

Lemma count_char_lstrip (c : ascii) (s : string) :
  (count_char c (lstrip s) ≤ count_char c s)%nat.
Proof.
  induction s as [|a s IH]; [done|]. cbn [lstrip].
  destruct (is_space a); [|done]. cbn [count_char]. lia.
Qed.

Lemma count_char_rstrip (c : ascii) (s : string) :
  (count_char c (rstrip s) ≤ count_char c s)%nat.
Proof.
  induction s as [|a s IH]; [done|]. cbn [rstrip].
  destruct (rstrip s) as [|b r].
  - destruct (is_space a); cbn [count_char] in *; lia.
  - cbn [count_char] in *. lia.
Qed.

Lemma length_lstrip (s : string) :
  (String.length (lstrip s) ≤ String.length s)%nat.
Proof.
  induction s as [|a s IH]; [done|]. cbn [lstrip].
  destruct (is_space a); cbn [String.length]; lia.
Qed.

Lemma lstrip_idem (s : string) : lstrip (lstrip s) = lstrip s.
Proof.
  induction s as [|a s IH]; [done|]. cbn [lstrip].
  destruct (is_space a) eqn:Ha; [done|]. cbn [lstrip]. by rewrite Ha.
Qed.

Lemma rstrip_idem (s : string) : rstrip (rstrip s) = rstrip s.
Proof.
  induction s as [|a s IH]; [done|]. cbn [rstrip].
  destruct (rstrip s) as [|b r] eqn:Hr.
  - destruct (is_space a) eqn:Ha; [done|]. cbn. by rewrite Ha.
  - cbn [rstrip]. cbn [rstrip] in IH. by rewrite IH.
Qed.

Lemma lstrip_rstrip (s : string) :
  lstrip s = s → lstrip (rstrip s) = rstrip s.
Proof.
  destruct s as [|a s]; [done|]. cbn [lstrip]. intros Hs.
  destruct (is_space a) eqn:Ha.
  - pose proof (length_lstrip s) as Hlen. rewrite Hs in Hlen.
    cbn [String.length] in Hlen. lia.
  - cbn [rstrip]. destruct (rstrip s); rewrite ?Ha; cbn [lstrip]; by rewrite Ha.
Qed.

Lemma strip_idem (s : string) : strip (strip s) = strip s.
Proof.
  unfold strip. rewrite (lstrip_rstrip (lstrip s)) by apply lstrip_idem.
  apply rstrip_idem.
Qed.

(** The recipients are as many as the commas of [RECIPIENTS] and one more;
    none contains a comma or has white space at its ends. *)
Lemma recipient_emails_shape :
  length (recipient_emails cfg)
  = S (count_char ","%char (text_of (RECIPIENTS cfg)))
  ∧ Forall (λ r, count_char ","%char r = 0 ∧ strip r = r) (recipient_emails cfg).
Proof.
  unfold recipient_emails. split.
  - by rewrite length_fmap, split_on_length.
  - apply Forall_fmap.
    eapply Forall_impl; [apply split_on_no_separator|].
    intros p Hp.
    change (count_char ","%char (strip p) = 0 ∧ strip (strip p) = strip p).
    split; [|apply strip_idem].
    unfold strip.
    pose proof (count_char_rstrip ","%char (lstrip p)) as H1.
    pose proof (count_char_lstrip ","%char p) as H2.
    rewrite Hp in H2. lia.
Qed.

Lemma append_cons (a : ascii) (s1 s2 : string) :
  String a s1 +:+ s2 = String a (s1 +:+ s2).
Proof. done. Qed.

Lemma append_empty (s : string) : "" +:+ s = s.
Proof. done. Qed.

Lemma count_char_app (c : ascii) (s1 s2 : string) :
  count_char c (s1 +:+ s2) = count_char c s1 + count_char c s2.
Proof.
  induction s1 as [|a s1 IH]; [done|]. rewrite append_cons.
  cbn [count_char]. rewrite IH. lia.
Qed.

Lemma count_comma_all_space (s : string) :
  all_space s = true → count_char ","%char s = 0.
Proof.
  induction s as [|a s IH]; [done|]. cbn [all_space count_char].
  intros [Ha Hs]%andb_prop. rewrite (IH Hs).
  destruct (Ascii.eqb_spec a ","%char) as [->|_]; [done|lia].
Qed.

Lemma split_on_piece (c : ascii) (p : string) :
  count_char c p = 0 → split_on c p = [p].
Proof.
  induction p as [|a p IH]; [done|]. cbn [count_char split_on].
  destruct (Ascii.eqb a c); [done|]. intros Hp. by rewrite IH.
Qed.

Lemma split_on_piece_sep (c : ascii) (p rest : string) :
  count_char c p = 0 →
  split_on c (p +:+ String c rest) = p :: split_on c rest.
Proof.
  induction p as [|a p IH]; rewrite ?append_cons, ?append_empty;
    cbn [count_char split_on].
  - by rewrite Ascii.eqb_refl.
  - destruct (Ascii.eqb a c); [done|]. intros Hp. by rewrite IH.
Qed.

Lemma split_on_join (c : ascii) (pieces : list string) :
  pieces ≠ [] →
  Forall (λ p, count_char c p = 0) pieces →
  split_on c (join (String c "") pieces) = pieces.
Proof.
  intros Hne Hall. induction Hall as [|p ps Hp Hps IH]; [done|].
  destruct ps as [|q ps].
  - by apply split_on_piece.
  - change (join (String c "") (p :: q :: ps))
      with (p +:+ String c "" +:+ join (String c "") (q :: ps)).
    rewrite append_cons, append_empty.
    rewrite split_on_piece_sep by done. by rewrite IH.
Qed.

Lemma lstrip_all_space (s x : string) :
  all_space s = true → lstrip (s +:+ x) = lstrip x.
Proof.
  induction s as [|a s IH]; [done|]. rewrite append_cons.
  cbn [all_space lstrip].
  intros [-> Hs]%andb_prop. by apply IH.
Qed.

Lemma lstrip_only_space (s : string) : all_space s = true → lstrip s = "".
Proof.
  induction s as [|a s IH]; [done|]. cbn [all_space lstrip].
  intros [-> Hs]%andb_prop. by apply IH.
Qed.

Lemma rstrip_only_space (s : string) : all_space s = true → rstrip s = "".
Proof.
  induction s as [|a s IH]; [done|]. cbn [all_space rstrip].
  intros [-> Hs]%andb_prop. by rewrite IH.
Qed.

Lemma rstrip_all_space (x s : string) :
  all_space s = true → rstrip (x +:+ s) = rstrip x.
Proof.
  intros Hs. induction x as [|a x IH]; rewrite ?append_cons, ?append_empty.
  - by apply rstrip_only_space.
  - cbn [rstrip]. by rewrite IH.
Qed.

Lemma rstrip_no_trailing_space (x : string) :
  ends_with_space x = false → rstrip x = x.
Proof.
  induction x as [|a x IH]; [done|]. cbn [rstrip].
  destruct x as [|b x].
  - cbn. by intros ->.
  - intros Hx. rewrite IH; [done|]. exact Hx.
Qed.

Lemma strip_padded (entry : string * string * string) :
  clean_entry entry = true → strip (padded entry) = entry.1.2.
Proof.
  destruct entry as [[pre a] post]. unfold clean_entry, padded, strip. cbn [fst snd].
  intros [[[[[Hpre Hpost]%andb_prop _]%andb_prop Hlead%negb_true_iff]%andb_prop
             Htrail%negb_true_iff]%andb_prop _]%andb_prop.
  rewrite lstrip_all_space by done.
  destruct a as [|c a].
  - rewrite append_empty. by rewrite lstrip_only_space.
  - cbn [starts_with_space] in Hlead. rewrite append_cons. cbn [lstrip].
    rewrite Hlead. rewrite <- append_cons.
    rewrite rstrip_all_space by done. by apply rstrip_no_trailing_space.
Qed.

Lemma count_comma_padded (entry : string * string * string) :
  clean_entry entry = true → count_char ","%char (padded entry) = 0.
Proof.
  destruct entry as [[pre a] post]. unfold clean_entry, padded. cbn [fst snd].
  intros [[[[[Hpre Hpost]%andb_prop Ha%Nat.eqb_eq]%andb_prop _]%andb_prop
             _]%andb_prop _]%andb_prop.
  by rewrite !count_char_app, Ha, !count_comma_all_space.
Qed.

(** X14: a list of addresses is read back from [RECIPIENTS].  When
    [RECIPIENTS] is one or more addresses put side by side with commas
    between them, each address ASCII text free of commas and of white
    space at its ends and surrounded by any amount of white space, the
    envelope recipients are exactly these addresses, in their order. *)
Theorem recipients_of_comma_separated_list
    (entries : list (string * string * string)) :
  entries ≠ [] →
  Forall (λ entry, clean_entry entry = true) entries →
  RECIPIENTS cfg = Some (join "," (padded <$> entries)) →
  recipient_emails cfg = (λ entry, entry.1.2) <$> entries.
Proof.
  intros Hne Hclean Hto. unfold recipient_emails. rewrite Hto.
  change (strip <$> split_on ","%char
                      (join (String ","%char "") (padded <$> entries))
          = (λ entry, entry.1.2) <$> entries).
  rewrite split_on_join.
  - rewrite <- list_fmap_compose. apply Forall_fmap_ext.
    eapply Forall_impl; [exact Hclean|]. intros entry. apply strip_padded.
  - by destruct entries.
  - apply Forall_fmap. eapply Forall_impl; [exact Hclean|].
    intros entry. apply count_comma_padded.
Qed.

End Parts.

(** ** The statements at sample runs *)

Import Sample.

Example full_event_block :
  event_details repr0 full_event
  = Ok (join nl ["----------------------------------------";
                 "Event: Rainbow Goblins";
                 "Date: 2025-03-01";
                 "Venue: Budokan in Tokyo";
                 "Link: https://tickets.example/B";
                 ""]).
Proof. reflexivity. Qed.

Example bare_event_block :
  event_details repr0 (event "B" "Brasilian Skies")
  = Ok (join nl ["----------------------------------------";
                 "Event: Brasilian Skies";
                 "Date: N/A";
                 "Venue: N/A in N/A";
                 "Link: https://tickets.example/B";
                 ""]).
Proof. reflexivity. Qed.

Example sample_events_shape :
  well_shaped full_event = true
  ∧ well_shaped (event "B" "Brasilian Skies") = true
  ∧ well_shaped no_venue_event = false.
Proof. repeat split. Qed.

Example recipients_are_split_and_stripped :
  recipient_emails cfg_full = ["a@example.org"; "b@example.org"].
Proof. reflexivity. Qed.

Lemma c1_witness :
  (∀ x, x ∈ new_ids ({["A"; "B"]} : gset string) {["A"]}
        ↔ x ∈ ({["A"; "B"]} : gset string) ∧ x ∉ ({["A"]} : gset string))
  ∧ (({["A"; "B"]} : gset string) ⊆ {["A"]} →
     new_ids ({["A"; "B"]} : gset string) {["A"]} = ∅
     ∧ ∃ w', main repr0 hash0 cfg_full (net_of [event "A" "a"; event "B" "b"])
               (store ["A"]) = (Ok tt, w')
             ∧ notify_calls w' = notify_calls (store ["A"])
             ∧ outbox w' = outbox (store ["A"]))
  ∧ (¬ ({["A"; "B"]} : gset string) ⊆ {["A"]} →
     new_ids ({["A"; "B"]} : gset string) {["A"]} ≠ ∅
     ∧ ∃ items, py_iter (JArr [event "A" "a"; event "B" "b"]) = Ok items
                ∧ notify_calls
                    (main repr0 hash0 cfg_full
                       (net_of [event "A" "a"; event "B" "b"]) (store ["A"])).2
                  = (notify_calls (store ["A"])
                     ++ [List.filter (has_new_id (new_ids {["A"; "B"]} {["A"]}))
                           items])%list).
Proof.
  apply (c1_diff_is_set_difference repr0 hash0 cfg_full
           (net_of [event "A" "a"; event "B" "b"]) (store ["A"])
           {["A"]} {["A"; "B"]} (JArr [event "A" "a"; event "B" "b"]));
    vm_compute; reflexivity.
Defined.



(** C3, as the specification states it, fails: the store holds A, the run
    fetches only B and succeeds, and afterwards the store loads as the
    singleton of B, which is not the union of the known and the fetched ids:
    A has been removed. *)
Lemma c3_counterexample :
  (main repr0 hash0 cfg_full (net_of [event "B" "b"]) (store ["A"])).1 = Ok tt
  ∧ load_known_events (store ["A"]) = (Ok {["A"]}, store ["A"])
  ∧ current_ids (JArr [event "B" "b"]) = Ok {["B"]}
  ∧ (load_known_events
       (main repr0 hash0 cfg_full (net_of [event "B" "b"]) (store ["A"])).2).1
    = Ok {["B"]}
  ∧ (load_known_events
       (main repr0 hash0 cfg_full (net_of [event "B" "b"]) (store ["A"])).2).1
    ≠ Ok ({["A"]} ∪ {["B"]})
  ∧ "A" ∉ ({["B"]} : gset string).
Proof.
  repeat split; try (vm_compute; reflexivity).
  - vm_compute. discriminate.
  - by intros ?%elem_of_singleton.
Qed.

Lemma c3_witness :
  load_known_events
    (main repr0 hash0 cfg_full (net_of [event "B" "b"]) (store ["A"])).2
  = (Ok {["B"]},
     (main repr0 hash0 cfg_full (net_of [event "B" "b"]) (store ["A"])).2)
  ∧ (({["B"]} : gset string) = {["A"]} ∪ {["B"]}
     ↔ ({["A"]} : gset string) ⊆ {["B"]}).
Proof.
  apply (c3_saved_set_is_fetched_set repr0 hash0 cfg_full
           (net_of [event "B" "b"]) (store ["A"]) _ {["A"]} {["B"]}
           (JArr [event "B" "b"]));
    vm_compute; reflexivity.
Defined.

Lemma c4_witness :
  ∃ e w', main repr0 hash0 cfg_no_mail (net_of [event "B" "b"]) (store ["A"])
          = (Raise e, w')
          ∧ db_file w' = db_file (store ["A"])
          ∧ outbox w' = outbox (store ["A"])
          ∧ (mail_ready cfg_no_mail = false →
             e = ValueError "Email credentials not set.").
Proof.
  apply (c4_failed_notification_keeps_store repr0 hash0 cfg_no_mail
           (net_of [event "B" "b"]) (store ["A"]) {["A"]} {["B"]}
           (JArr [event "B" "b"])).
  1-4: vm_compute; reflexivity.
  - vm_compute. discriminate.
  - left. reflexivity.
Defined.

Lemma c5_witness :
  ∃ e, is_request_exception e = true
       ∧ get_artist_events {| http := BadStatus 503; smtp := Accepted |}
           ARTIST_ID (store ["A"]) = (Raise e, store ["A"])
       ∧ main repr0 hash0 cfg_full {| http := BadStatus 503; smtp := Accepted |}
           (store ["A"]) = (Raise e, store ["A"]).
Proof.
  apply (c5_fetch_failure_is_fatal repr0 hash0 cfg_full
           {| http := BadStatus 503; smtp := Accepted |} (store ["A"]) {["A"]}).
  1-2: vm_compute; reflexivity.
  right. exists 503%Z. reflexivity.
Defined.

Lemma c7_witness :
  load_known_events (save_known_events hash0 {["A"; "B"]} no_store).2
  = (Ok {["A"; "B"]}, (save_known_events hash0 {["A"; "B"]} no_store).2)
  ∧ load_known_events (store ["B"; "A"]) = (Ok {["A"; "B"]}, store ["B"; "A"]).
Proof.
  destruct (c7_save_load_round_trip hash0 {["A"; "B"]} no_store) as [Hsave Hany].
  split; [exact Hsave|].
  apply (Hany ["B"; "A"] (store ["B"; "A"])); [|reflexivity].
  vm_compute. apply perm_swap.
Defined.

Lemma c8_witness :
  db_file no_store = None ∧ load_known_events no_store = (Ok ∅, no_store).
Proof.
  split; [reflexivity|]. apply (c8_load_missing_store no_store). reflexivity.
Defined.

Lemma c9_witness :
  (({["A"]} : gset string) ⊆ {["A"; "B"]} →
   ∃ w', main repr0 hash0 cfg_no_mail (net_of [event "A" "a"])
           (store ["A"; "B"]) = (Ok tt, w')
         ∧ load_known_events w' = (Ok {["A"]}, w')
         ∧ notify_calls w' = notify_calls (store ["A"; "B"])
         ∧ outbox w' = outbox (store ["A"; "B"]))
  ∧ (¬ ({["A"]} : gset string) ⊆ {["A"; "B"]} →
     ∃ w', main repr0 hash0 cfg_no_mail (net_of [event "A" "a"])
             (store ["A"; "B"])
           = (Raise (ValueError "Email credentials not set."), w')
           ∧ db_file w' = db_file (store ["A"; "B"])).
Proof.
  apply (c9_credentials_unused_without_news repr0 hash0 cfg_no_mail
           (net_of [event "A" "a"]) (store ["A"; "B"]) {["A"; "B"]} {["A"]}
           (JArr [event "A" "a"]));
    vm_compute; reflexivity.
Defined.

Lemma c10_witness :
  get_artist_events
    {| http := Reply (Some (JObj [("page", JObj [("totalElements", JNum 0)])]));
       smtp := Accepted |} ARTIST_ID (store ["A"; "B"])
  = (Ok (JArr []), store ["A"; "B"])
  ∧ ∃ w', main repr0 hash0 cfg_full
            {| http := Reply (Some (JObj [("page",
                                           JObj [("totalElements", JNum 0)])]));
               smtp := Accepted |} (store ["A"; "B"]) = (Ok tt, w')
          ∧ db_file w' = Some (Json (JArr []))
          ∧ load_known_events w' = (Ok ∅, w').
Proof.
  apply (c10_missing_events_empties_store repr0 hash0 cfg_full
           {| http := Reply (Some (JObj [("page",
                                          JObj [("totalElements", JNum 0)])]));
              smtp := Accepted |} (store ["A"; "B"]) {["A"; "B"]}
           [("page", JObj [("totalElements", JNum 0)])]).
  1-3: vm_compute; reflexivity.
  left. reflexivity.
Defined.

(** *** Sample runs for the further properties *)

Lemma missing_api_key_witness :
  script repr0 hash0 (Config None (Some "me@example.org") (Some "secret")
                        (Some "a@example.org"))
    (net_of [event "B" "b"]) (store ["A"])
  = main repr0 hash0 (Config None (Some "me@example.org") (Some "secret")
                        (Some "a@example.org"))
      (net_of [event "B" "b"]) (store ["A"])
  ∧ main repr0 hash0 (Config None (Some "me@example.org") (Some "secret")
                        (Some "a@example.org"))
      (net_of [event "B" "b"]) (store ["A"])
    = (Raise (ValueError "Error: TICKETMASTER_API_KEY environment variable is not set."),
       store ["A"]).
Proof.
  destruct (missing_api_key_stops_before_io repr0 hash0
              (Config None (Some "me@example.org") (Some "secret")
                 (Some "a@example.org"))
              (net_of [event "B" "b"]) (store ["A"])) as [Hs Hk].
  split; [exact Hs|]. apply Hk. reflexivity.
Defined.

Lemma failed_run_witness :
  main repr0 hash0 cfg_no_mail (net_of [event "B" "b"]) (store ["A"])
  = (Raise (ValueError "Email credentials not set."),
     entered [event "B" "b"] (store ["A"]))
  ∧ db_file (entered [event "B" "b"] (store ["A"])) = db_file (store ["A"]).
Proof.
  assert (main repr0 hash0 cfg_no_mail (net_of [event "B" "b"]) (store ["A"])
          = (Raise (ValueError "Email credentials not set."),
             entered [event "B" "b"] (store ["A"]))) as Hrun
    by (vm_compute; reflexivity).
  split; [exact Hrun|].
  exact (failed_run_keeps_store_file repr0 hash0 cfg_no_mail
           (net_of [event "B" "b"]) (store ["A"])
           (entered [event "B" "b"] (store ["A"]))
           (ValueError "Email credentials not set.") Hrun).
Defined.

Lemma saved_store_witness :
  ∃ ids,
    db_file (main repr0 hash0 cfg_full
               (net_of [event "A" "a"; event "B" "b"; event "A" "again"])
               (store [])).2
    = Some (Json (JArr (JStr <$> ids)))
    ∧ NoDup ids
    ∧ ∀ k, k ∈ ids
           ↔ ∃ e, e ∈ [event "A" "a"; event "B" "b"; event "A" "again"]
                  ∧ py_getitem e "id" = Ok (JStr k).
Proof.
  apply (saved_store_lists_each_fetched_id_once repr0 hash0 cfg_full
           (net_of [event "A" "a"; event "B" "b"; event "A" "again"])
           (store []) _
           (JArr [event "A" "a"; event "B" "b"; event "A" "again"])
           [event "A" "a"; event "B" "b"; event "A" "again"]).
  - reflexivity.
  - reflexivity.
  - repeat constructor; by eexists.
  - vm_compute. reflexivity.
Defined.

Lemma rerun_witness :
  ∃ C w2 ids1 ids2,
    load_known_events
      (main repr0 hash0 cfg_full (net_of [event "A" "a"; event "B" "b"])
         (store ["A"])).2
    = (Ok C,
       (main repr0 hash0 cfg_full (net_of [event "A" "a"; event "B" "b"])
          (store ["A"])).2)
    ∧ main repr0 (λ s, if String.eqb s "A" then 2%N else 1%N) cfg_no_mail
        {| http := Reply (Some (feed [event "A" "a"; event "B" "b"]));
           smtp := Unreachable |}
        (main repr0 hash0 cfg_full (net_of [event "A" "a"; event "B" "b"])
           (store ["A"])).2
      = (Ok tt, w2)
    ∧ notify_calls w2
      = notify_calls
          (main repr0 hash0 cfg_full (net_of [event "A" "a"; event "B" "b"])
             (store ["A"])).2
    ∧ outbox w2
      = outbox
          (main repr0 hash0 cfg_full (net_of [event "A" "a"; event "B" "b"])
             (store ["A"])).2
    ∧ load_known_events w2 = (Ok C, w2)
    ∧ db_file
        (main repr0 hash0 cfg_full (net_of [event "A" "a"; event "B" "b"])
           (store ["A"])).2
      = Some (Json (JArr (JStr <$> ids1)))
    ∧ db_file w2 = Some (Json (JArr (JStr <$> ids2)))
    ∧ ids2 ≡ₚ ids1.
Proof.
  apply (rerun_on_same_response_is_silent repr0 hash0
           (λ s, if String.eqb s "A" then 2%N else 1%N) cfg_full cfg_no_mail
           (net_of [event "A" "a"; event "B" "b"])
           {| http := Reply (Some (feed [event "A" "a"; event "B" "b"]));
              smtp := Unreachable |}
           (store ["A"])).
  all: vm_compute; reflexivity.
Defined.

Example rerun_may_reorder_the_store :
  db_file (main repr0 hash0 cfg_full (net_of [event "A" "a"; event "B" "b"])
             (store ["A"])).2
  = Some (Json (JArr [JStr "A"; JStr "B"]))
  ∧ db_file
      (main repr0 (λ s, if String.eqb s "A" then 2%N else 1%N) cfg_no_mail
         (net_of [event "A" "a"; event "B" "b"])
         (main repr0 hash0 cfg_full (net_of [event "A" "a"; event "B" "b"])
            (store ["A"])).2).2
    = Some (Json (JArr [JStr "B"; JStr "A"])).
Proof. split; vm_compute; reflexivity. Qed.

Lemma repeated_notification_witness :
  ∃ items,
    py_iter (JArr [event "A" "a"; event "B" "b"]) = Ok items
    ∧ notify_calls (entered [event "B" "b"] (store ["A"]))
      = (notify_calls (store ["A"])
         ++ [List.filter (has_new_id ({["A"; "B"]} ∖ {["A"]})) items])%list
    ∧ notify_calls
        (main repr0 hash0 cfg_full (net_of [event "A" "a"; event "B" "b"])
           (entered [event "B" "b"] (store ["A"]))).2
      = (notify_calls (entered [event "B" "b"] (store ["A"]))
         ++ [List.filter (has_new_id ({["A"; "B"]} ∖ {["A"]})) items])%list.
Proof.
  apply (failed_notification_is_repeated repr0 hash0 cfg_no_mail cfg_full
           (net_of [event "A" "a"; event "B" "b"])
           (net_of [event "A" "a"; event "B" "b"])
           (store ["A"]) (entered [event "B" "b"] (store ["A"]))
           {["A"]} {["A"; "B"]} (JArr [event "A" "a"; event "B" "b"])
           (ValueError "Email credentials not set.")).
  1-4, 6-8: vm_compute; reflexivity.
  intros Hsub. assert ("B" ∈ ({["A"]} : gset string)) as HB.
  { apply Hsub, elem_of_union. right. by apply elem_of_singleton. }
  by apply elem_of_singleton in HB.
Defined.

Lemma returning_event_witness :
  ∃ new_events,
    notify_calls
      (main repr0 hash0 cfg_full (net_of [event "A" "a"])
         (main repr0 hash0 cfg_full (net_of []) (store ["A"])).2).2
    = (notify_calls (main repr0 hash0 cfg_full (net_of []) (store ["A"])).2
       ++ [new_events])%list
    ∧ event "A" "a" ∈ new_events.
Proof.
  apply (returning_event_is_announced_again repr0 hash0 cfg_full cfg_full
           (net_of []) (net_of [event "A" "a"]) (store ["A"])
           (main repr0 hash0 cfg_full (net_of []) (store ["A"])).2
           (JArr []) (JArr [event "A" "a"]) ∅ {["A"]} [event "A" "a"]
           "A" (event "A" "a")).
  1-3, 5-8, 10: vm_compute; reflexivity.
  - apply not_elem_of_empty.
  - apply list_elem_of_here.
Defined.

Lemma unreadable_event_witness :
  notify_email repr0 cfg_full (net_of []) [full_event; no_venue_event] no_store
  = (Raise IndexError, entered [full_event; no_venue_event] no_store)
  ∧ outbox (notify_email repr0 cfg_full (net_of [])
              [full_event; no_venue_event] no_store).2
    = outbox no_store.
Proof.
  apply (unreadable_event_stops_notification repr0 cfg_full (net_of [])
           [full_event] [] no_venue_event IndexError no_store).
  - reflexivity.
  - repeat constructor.
  - reflexivity.
Defined.


Lemma unreadable_id_witness :
  main repr0 hash0 cfg_full
    (net_of [event "B" "b"; JObj [("name", JStr "no id")]; event "C" "c"])
    (store ["A"])
  = (Raise KeyError, store ["A"])
  ∧ (∀ ms, JObj [("name", JStr "no id")] = JObj ms →
           lookup_member "id" ms = None → KeyError = KeyError).
Proof.
  apply (unreadable_id_stops_run repr0 hash0 cfg_full
           (net_of [event "B" "b"; JObj [("name", JStr "no id")]; event "C" "c"])
           (store ["A"]) {["A"]}
           (JArr [event "B" "b"; JObj [("name", JStr "no id")]; event "C" "c"])
           [event "B" "b"] [event "C" "c"] (JObj [("name", JStr "no id")])
           KeyError).
  1-4: vm_compute; reflexivity.
  - repeat constructor. by exists "B".
  - left. reflexivity.
Defined.

Lemma load_contents_witness :
  (∀ l, JArr [JStr "B"; JStr "A"; JStr "B"] = JArr (JStr <$> l) →
        ∃ s, load_known_events (store ["B"; "A"; "B"])
             = (Ok s, store ["B"; "A"; "B"])
             ∧ ∀ k, k ∈ s ↔ k ∈ l)
  ∧ (∀ ms, JArr [JStr "B"; JStr "A"; JStr "B"] = JObj ms →
           ∃ s, load_known_events (store ["B"; "A"; "B"])
                = (Ok s, store ["B"; "A"; "B"])
                ∧ ∀ k, k ∈ s ↔ k ∈ ms.*1).
Proof.
  apply (load_known_events_contents (store ["B"; "A"; "B"])
           (JArr [JStr "B"; JStr "A"; JStr "B"])).
  reflexivity.
Defined.

Lemma events_not_a_list_witness :
  main repr0 hash0 cfg_full
    {| http := Reply (Some (JObj [("_embedded",
                                   JObj [("events",
                                          JObj [("id", JStr "B")])])]));
       smtp := Accepted |} (store ["A"])
  = (Raise TypeError, store ["A"]).
Proof.
  apply (events_that_are_not_a_list repr0 hash0 cfg_full
           {| http := Reply (Some (JObj [("_embedded",
                                          JObj [("events",
                                                 JObj [("id", JStr "B")])])]));
              smtp := Accepted |} (store ["A"]) {["A"]}
           (JObj [("id", JStr "B")])).
  1-3: vm_compute; reflexivity.
  intros items. discriminate.
Defined.

Lemma recipients_witness :
  recipient_emails
    {| API_KEY := Some "key"; GMAIL_USER := Some "me@example.org";
       GMAIL_APP_PASSWORD := Some "secret";
       RECIPIENTS := Some "a@example.org,  b@example.org ,c@example.org" |}
  = ["a@example.org"; "b@example.org"; "c@example.org"].
Proof.
  apply (recipients_of_comma_separated_list
           {| API_KEY := Some "key"; GMAIL_USER := Some "me@example.org";
              GMAIL_APP_PASSWORD := Some "secret";
              RECIPIENTS := Some "a@example.org,  b@example.org ,c@example.org" |}
           [("", "a@example.org", ""); ("  ", "b@example.org", " ");
            ("", "c@example.org", "")]).
  - discriminate.
  - repeat constructor.
  - reflexivity.
Defined.
